(** * Voice inventory assistant: command interpretation and ledger reconciliation

    A shallow embedding of [src/App.js].  The file holds two variants of the
    same React component: the first keeps the ledger in component state only
    (module [InMemory]), the second writes every quantity change through to a
    hosted store before touching component state (module [Persisted]).  The
    command interpreter [processVoiceCommand] is textually the same in both.
    Beside interpreter and reconciler the development covers item
    registration ([addSampleItem]), the low-stock display (module [Render])
    and the handlers of the recognition session (module [Speech]).

    Modelling conventions.
    - A JavaScript string is a Rocq [string]; the development is exact for
      ASCII text: [toLowerCase] folds A-Z only, the class [\s] is the ASCII
      white space, [.] excludes the two ASCII line terminators.
    - A JavaScript number is a double.  Quantities are [Z]; the model agrees
      with the code on integers of absolute value at most
      [MAX_SAFE_INTEGER] = 2^53 - 1, where [+], [-] and [parseInt] are exact.
      Every statement that depends on the value of a sum, a difference or a
      parsed numeral assumes its operands and results in that range.
    - [new Date()] reads a clock which is passed in as a [Time].
    - React state is a record; a state setter is a function on that record.
      The updater form [setInventory(prev => ...)] runs on the state at the
      time of the update, whereas [inventory.find] reads the array captured
      by the closure.  The two are separate arguments throughout:
      [recognition.onresult] is assigned once, in an effect without
      dependencies, so a voice command searches the array of the first
      render (the seed in the first variant, the empty array in the second)
      whatever the state holds by then.
    - [setTimeout] clearing the highlight after two seconds is not modelled. *)

From Stdlib Require Import Bool Arith ZArith Lia List.
From Stdlib Require Import Strings.Ascii Strings.String Numbers.DecimalString.
Import ListNotations.

Open Scope string_scope.

(** ** Strings of the host language *)

Module JS.

Definition isUpper (a : ascii) : bool :=
  let n := nat_of_ascii a in (65 <=? n)%nat && (n <=? 90)%nat.

Definition isDigit (a : ascii) : bool :=
  let n := nat_of_ascii a in (48 <=? n)%nat && (n <=? 57)%nat.

(** White space and line terminators, as matched by [\s] and removed by
    [String.prototype.trim]: TAB, LF, VT, FF, CR, SPACE. *)
Definition isSpace (a : ascii) : bool :=
  let n := nat_of_ascii a in ((9 <=? n)%nat && (n <=? 13)%nat) || (n =? 32)%nat.

(** The class [.]: any character but a line terminator. *)
Definition isDot (a : ascii) : bool :=
  let n := nat_of_ascii a in negb ((n =? 10)%nat || (n =? 13)%nat).

Definition lowerChar (a : ascii) : ascii :=
  if isUpper a then ascii_of_nat (nat_of_ascii a + 32) else a.

(** [String.prototype.toLowerCase] *)
Fixpoint toLowerCase (s : string) : string :=
  match s with
  | EmptyString => EmptyString
  | String a s' => String (lowerChar a) (toLowerCase s')
  end.

(** [s.startsWith(t)], the test at one position of [includes]. *)
Fixpoint startsWith (s t : string) {struct t} : bool :=
  match t, s with
  | EmptyString, _ => true
  | String b t', String a s' => Ascii.eqb a b && startsWith s' t'
  | String _ _, EmptyString => false
  end.

(** [String.prototype.includes]: [t] occurs somewhere in [s]. *)
Fixpoint includes (s t : string) : bool :=
  if startsWith s t then true
  else match s with
       | EmptyString => false
       | String _ s' => includes s' t
       end.

Fixpoint trimStart (s : string) : string :=
  match s with
  | EmptyString => EmptyString
  | String a s' => if isSpace a then trimStart s' else s
  end.

Fixpoint trimEnd (s : string) : string :=
  match s with
  | EmptyString => EmptyString
  | String a s' =>
      match trimEnd s' with
      | EmptyString => if isSpace a then EmptyString else String a EmptyString
      | t => String a t
      end
  end.

(** [String.prototype.trim] *)
Definition trim (s : string) : string := trimEnd (trimStart s).

Definition digitValue (a : ascii) : Z := Z.of_nat (nat_of_ascii a - 48).

Fixpoint parseDigits (acc : Z) (s : string) : Z :=
  match s with
  | EmptyString => acc
  | String a s' => if isDigit a then parseDigits (10 * acc + digitValue a) s' else acc
  end.

(** [parseInt] on the arguments it receives here, which are runs of decimal
    digits (lemma [pattern_groups] below): the base-10 value of the
    leading digits.  Sign, radix prefix and the NaN result of a string with
    no leading digit never arise at the call site and are not modelled.
    The code returns a double: it is this integer when the value is at most
    2^53 - 1, and the nearest double or Infinity beyond, which [Z] does not
    represent; statements about the value carry that bound. *)
Definition parseInt (s : string) : Z := parseDigits 0 s.

(** Template-literal interpolation of an integer. *)
Definition numberToString (z : Z) : string := NilZero.string_of_int (Z.to_int z).

(** [Array.prototype.join] *)
Fixpoint join (sep : string) (l : list string) : string :=
  match l with
  | [] => EmptyString
  | [x] => x
  | x :: l' => x ++ sep ++ join sep l'
  end.

End JS.

(** ** Regular expressions

    The fragment of the regular-expression language the four command
    patterns and the direction test are written in, with the backtracking
    semantics of [String.prototype.match] for a pattern without the [g] flag:
    leftmost start position, greedy and lazy quantifiers tried in priority
    order, first success wins.  All patterns carry the [i] flag, so a literal
    letter is compared up to ASCII case. *)

Module Regex.

Inductive regex : Type :=
| Lit (l : string)                 (* literal text, case-insensitive *)
| Plus (cls : ascii -> bool)       (* [X+], greedy, [X] a character class *)
| PlusLazy (cls : ascii -> bool)   (* [X+?] *)
| Opt (r : regex)                  (* [(?:r)?], greedy *)
| Cap (i : nat) (r : regex)        (* capturing group number [i] *)
| Seq (r1 r2 : regex).

(** Captured groups, most recent binding first. *)
Definition captures := list (nat * string).

Fixpoint group (i : nat) (c : captures) : option string :=
  match c with
  | [] => None
  | (j, x) :: c' => if Nat.eqb i j then Some x else group i c'
  end.

(** Continuation: what remains of the pattern, run on the rest of the input. *)
Definition cont := string -> captures -> option captures.

(** Literal [l] at the head of [s], up to case; the rest of [s] on success. *)
Fixpoint stripLit (l s : string) {struct l} : option string :=
  match l, s with
  | EmptyString, _ => Some s
  | String b l', String a s' =>
      if Ascii.eqb (JS.lowerChar a) (JS.lowerChar b) then stripLit l' s' else None
  | String _ _, EmptyString => None
  end.

(** Zero or more [cls], longest first. *)
Fixpoint starGreedy (cls : ascii -> bool) (k : cont) (s : string) (c : captures)
  : option captures :=
  match s with
  | String a s' =>
      if cls a then
        match starGreedy cls k s' c with
        | Some r => Some r
        | None => k s c
        end
      else k s c
  | EmptyString => k s c
  end.

(** Zero or more [cls], shortest first. *)
Fixpoint starLazy (cls : ascii -> bool) (k : cont) (s : string) (c : captures)
  : option captures :=
  match k s c with
  | Some r => Some r
  | None =>
      match s with
      | String a s' => if cls a then starLazy cls k s' c else None
      | EmptyString => None
      end
  end.

(** The text consumed between input [s] and its suffix [s']. *)
Definition consumed (s s' : string) : string :=
  substring 0 (String.length s - String.length s') s.

Fixpoint run (r : regex) (k : cont) (s : string) (c : captures) : option captures :=
  match r with
  | Lit l =>
      match stripLit l s with
      | Some s' => k s' c
      | None => None
      end
  | Plus cls =>
      match s with
      | String a s' => if cls a then starGreedy cls k s' c else None
      | EmptyString => None
      end
  | PlusLazy cls =>
      match s with
      | String a s' => if cls a then starLazy cls k s' c else None
      | EmptyString => None
      end
  | Opt r1 =>
      match run r1 k s c with
      | Some res => Some res
      | None => k s c
      end
  | Cap i r1 => run r1 (fun s' c' => k s' ((i, consumed s s') :: c')) s c
  | Seq r1 r2 => run r1 (run r2 k) s c
  end.

Definition accept : cont := fun _ c => Some c.

(** [s.match(r)]: the captures of the leftmost match. *)
Fixpoint exec (r : regex) (s : string) : option captures :=
  match run r accept s [] with
  | Some c => Some c
  | None =>
      match s with
      | String _ s' => exec r s'
      | EmptyString => None
      end
  end.

(** [r.test(s)] *)
Definition test (r : regex) (s : string) : bool :=
  match exec r s with Some _ => true | None => false end.

End Regex.

(** ** The command interpreter ([processVoiceCommand], parsing part) *)

Import Regex.

Definition ws : regex := Plus JS.isSpace.          (* [\s+] *)
Definition num : regex := Cap 1 (Plus JS.isDigit). (* [(\d+)] *)

Fixpoint seq (l : list regex) : regex :=
  match l with
  | [] => Lit EmptyString
  | [r] => r
  | r :: l' => Seq r (seq l')
  end.

(** [/(?:i\s+)?used\s+(\d+)\s+(.+)/i] *)
Definition pattern_used : regex :=
  seq [Opt (seq [Lit "i"; ws]); Lit "used"; ws; num; ws; Cap 2 (Plus JS.isDot)].

(** [/remove\s+(\d+)\s+(.+)/i] *)
Definition pattern_remove : regex :=
  seq [Lit "remove"; ws; num; ws; Cap 2 (Plus JS.isDot)].

(** [/add\s+(\d+)\s+(.+?)(?:\s+to\s+inventory)?/i] *)
Definition pattern_add : regex :=
  seq [Lit "add"; ws; num; ws; Cap 2 (PlusLazy JS.isDot);
       Opt (seq [ws; Lit "to"; ws; Lit "inventory"])].

(** [/(\d+)\s+(.+?)\s+used/i] *)
Definition pattern_trailing_used : regex :=
  seq [num; ws; Cap 2 (PlusLazy JS.isDot); ws; Lit "used"].

Definition patterns : list regex :=
  [pattern_used; pattern_remove; pattern_add; pattern_trailing_used].

(** [/add/i] *)
Definition pattern_direction : regex := Lit "add".

(** The arguments [processVoiceCommand] hands to [updateInventory]. *)
Module Intent.
Record t : Type := mk {
  itemName : string;
  quantity : Z;
  isAdding : bool
}.
End Intent.

(** [match[i]].  Groups 1 and 2 take part in every match of the four
    patterns (lemma [pattern_groups]), so the default is never read. *)
Definition matchGroup (i : nat) (m : captures) : string :=
  match group i m with Some x => x | None => EmptyString end.

(** The [for (const pattern of patterns)] loop: the first pattern that
    matches decides, later ones are not tried. *)
Fixpoint firstMatch (ps : list regex) (lowerCommand : string) : option Intent.t :=
  match ps with
  | [] => None
  | pattern :: ps' =>
      match exec pattern lowerCommand with
      | Some m =>
          Some {| Intent.quantity := JS.parseInt (matchGroup 1 m);
                  Intent.itemName := JS.trim (matchGroup 2 m);
                  Intent.isAdding := test pattern_direction lowerCommand |}
      | None => firstMatch ps' lowerCommand
      end
  end.

Definition interpret (command : string) : option Intent.t :=
  firstMatch patterns (JS.toLowerCase command).

Definition unrecognizedStatus : string :=
  "Could not understand command. Try: " ++ String (ascii_of_nat 34) "I used 5 syringes"
  ++ String (ascii_of_nat 34) " or " ++ String (ascii_of_nat 34) "Add 10 gloves"
  ++ String (ascii_of_nat 34) EmptyString.


(** ** The ledger and the component state *)

Local Open Scope Z_scope.

Definition Time := Z.

(** An item of the ledger.  [quantity] and [lowStock] are JavaScript
    numbers: the integers written here stand for the doubles of the code as
    long as they stay within the safe-integer range (see the conventions at
    the head of the file). *)
Module Item.
Record t : Type := mk {
  id : Z;
  name : string;
  quantity : Z;
  unit : string;
  lowStock : Z;
  lastUpdated : Time
}.
End Item.

Record State : Type := mkState {
  inventory : list Item.t;
  status : string;
  updatedItemId : option Z
}.

Definition setInventory (f : list Item.t -> list Item.t) (st : State) : State :=
  {| inventory := f (inventory st); status := status st;
     updatedItemId := updatedItemId st |}.

Definition setStatus (msg : string) (st : State) : State :=
  {| inventory := inventory st; status := msg; updatedItemId := updatedItemId st |}.

Definition setUpdatedItemId (i : option Z) (st : State) : State :=
  {| inventory := inventory st; status := status st; updatedItemId := i |}.

(** [{...inv, quantity: q, lastUpdated: t}] *)
Definition withQuantity (inv : Item.t) (q : Z) (t : Time) : Item.t :=
  {| Item.id := Item.id inv; Item.name := Item.name inv; Item.quantity := q;
     Item.unit := Item.unit inv; Item.lowStock := Item.lowStock inv;
     Item.lastUpdated := t |}.

(** The callback of [inventory.find]. *)
Definition matchesItem (itemName : string) (inv : Item.t) : bool :=
  JS.includes (JS.toLowerCase (Item.name inv)) itemName
  || JS.includes itemName (JS.toLowerCase (Item.name inv)).

Definition quote : string := String (ascii_of_nat 34) EmptyString.

Definition updatedStatus (isAdding : bool) (quantity : Z) (item : Item.t) (newQuantity : Z)
  : string :=
  let action := if isAdding then "Added" else "Used" in
  "✅ " ++ action ++ " " ++ JS.numberToString quantity ++ " " ++ Item.name item
  ++ ". Stock: " ++ JS.numberToString (Item.quantity item) ++ " → "
  ++ JS.numberToString newQuantity.

Definition notFoundStatus (itemName : string) (inventory : list Item.t) : string :=
  let availableItems := JS.join ", " (map Item.name inventory) in
  "❌ Item " ++ quote ++ itemName ++ quote ++ " not found. Available items: "
  ++ availableItems.

Definition failedStatus (item : Item.t) : string :=
  "❌ Failed to update " ++ Item.name item ++ ". Please try again.".

(** [processVoiceCommand], over the [updateInventory] of either variant. *)
Definition processVoiceCommand
  (updateInventory : string -> Z -> bool -> State -> State)
  (command : string) (st : State) : State :=
  match interpret command with
  | Some i =>
      updateInventory (Intent.itemName i) (Intent.quantity i) (Intent.isAdding i) st
  | None => setStatus unrecognizedStatus st
  end.

(** ** First variant: the ledger lives in component state only *)

Module InMemory.

(** [inventory] is the array the closure captured and [find] searches; the
    state [st] is what the updater passed to [setInventory] receives. *)
Definition updateInventory (inventory : list Item.t) (now : Time)
  (itemName : string) (quantity : Z) (isAdding : bool) (st : State) : State :=
  match find (matchesItem itemName) inventory with
  | Some item =>
      let st1 :=
        setInventory
          (map (fun inv =>
                  if Z.eqb (Item.id inv) (Item.id item) then
                    withQuantity inv
                      (if isAdding then Item.quantity inv + quantity
                       else Z.max 0 (Item.quantity inv - quantity))
                      now
                  else inv))
          st in
      let newQuantity :=
        if isAdding then Item.quantity item + quantity
        else Z.max 0 (Item.quantity item - quantity) in
      setUpdatedItemId (Some (Item.id item))
        (setStatus (updatedStatus isAdding quantity item newQuantity) st1)
  | None => setStatus (notFoundStatus itemName inventory) st
  end.

(** The handler of a final transcript, bound at a render whose array
    [inventory] is [captured]; it runs on the state [st] of the time the
    transcript arrives. *)
Definition handle (captured : list Item.t) (now : Time) (command : string)
  (st : State) : State :=
  processVoiceCommand (updateInventory captured now) command st.

(** The ledger the component starts with ([lastUpdated] read at time [t0]). *)
Definition seed (t0 : Time) : list Item.t :=
  [ Item.mk 1 "Syringes" 25 "pieces" 10 t0;
    Item.mk 2 "Bandages" 15 "rolls" 5 t0;
    Item.mk 3 "Lidocaine" 8 "vials" 3 t0;
    Item.mk 4 "Gloves" 50 "pairs" 20 t0;
    Item.mk 5 "Gauze" 12 "packs" 5 t0 ].

(** [Math.max(...xs)] on integers; [None] stands for the value -Infinity
    that the call has on an empty argument list. *)
Definition maxOf (xs : list Z) : option Z :=
  match xs with
  | [] => None
  | x :: xs' => Some (fold_left Z.max xs' x)
  end.

(** [addSampleItem].  The new array is built from the captured [inventory]
    and replaces the state ([setInventory([...inventory, newItem])], no
    updater function).  The result is [None] when the captured array is
    empty: the new id would be -Infinity + 1, which is no integer. *)
Definition addSampleItem (inventory : list Item.t) (now : Time) (st : State)
  : option State :=
  match maxOf (map Item.id inventory) with
  | Some m =>
      let newItem :=
        Item.mk (m + 1)
          ("Sample Item " ++ JS.numberToString (Z.of_nat (List.length inventory) + 1))
          20 "pieces" 5 now in
      Some (setInventory (fun _ => (inventory ++ [newItem])%list) st)
  | None => None
  end.

(** The handler as the component binds it: [recognition.onresult] is
    assigned in an effect without dependencies, so it holds the array of the
    first render, the seed, for as long as the component lives. *)
Definition mounted (t0 now : Time) (command : string) (st : State) : State :=
  handle (seed t0) now command st.

Definition idleStatus : string := "Click the button and speak your inventory update".

(** The state of the first render. *)
Definition initial (t0 : Time) : State := mkState (seed t0) idleStatus None.

End InMemory.

(** ** Second variant: quantity changes are written to the hosted store *)

Module Persisted.

(** The row update sent to the store:
    [.update({quantity, last_updated}).eq('id', item.id)]. *)
Record UpdateRequest : Type := mkRequest {
  row_id : Z;
  row_quantity : Z;
  row_last_updated : Time
}.

(** What the awaited call resolves to: [{ error }], [error] null on success. *)
Inductive Response : Type :=
| Accepted
| Rejected (error : string).

(** The store is outside the repository; it is any function answering
    update requests. *)
Definition Store := UpdateRequest -> Response.

(** [sent] is the clock read for the request, [now] the one read after the
    store has answered. *)
Definition updateInventory (supabase : Store) (inventory : list Item.t)
  (sent now : Time) (itemName : string) (quantity : Z) (isAdding : bool)
  (st : State) : State :=
  match find (matchesItem itemName) inventory with
  | Some item =>
      let newQuantity :=
        if isAdding then Item.quantity item + quantity
        else Z.max 0 (Item.quantity item - quantity) in
      match supabase (mkRequest (Item.id item) newQuantity sent) with
      | Accepted =>
          let st1 :=
            setInventory
              (map (fun inv =>
                      if Z.eqb (Item.id inv) (Item.id item)
                      then withQuantity inv newQuantity now
                      else inv))
              st in
          setUpdatedItemId (Some (Item.id item))
            (setStatus (updatedStatus isAdding quantity item newQuantity) st1)
      | Rejected _ => setStatus (failedStatus item) st
      end
  | None => setStatus (notFoundStatus itemName inventory) st
  end.

(** The handler of a final transcript, bound at a render whose array
    [inventory] is [captured]. *)
Definition handle (supabase : Store) (captured : list Item.t) (sent now : Time)
  (command : string) (st : State) : State :=
  processVoiceCommand (updateInventory supabase captured sent now) command st.

(** The handler as the component binds it: at the first render the array is
    the initial state [useState([])], the rows being fetched later. *)
Definition mounted (supabase : Store) (sent now : Time) (command : string)
  (st : State) : State :=
  handle supabase [] sent now command st.

(** A stored row, as the store returns it, and the row sent for insertion. *)
Record Row : Type := mkRow {
  r_id : Z;
  r_name : string;
  r_quantity : Z;
  r_unit : string;
  r_low_stock : Z;
  r_last_updated : Time
}.

Record NewRow : Type := mkNewRow {
  n_name : string;
  n_quantity : Z;
  n_unit : string;
  n_low_stock : Z;
  n_last_updated : Time
}.

(** What [.insert([newItem]).select()] resolves to: [{ data, error }]. *)
Inductive InsertResponse : Type :=
| Inserted (data : list Row)
| InsertRejected (error : string).

(** The conversion of a row to an item, as in [fetchInventory] and
    [addSampleItem]. *)
Definition formatRow (row : Row) : Item.t :=
  Item.mk (r_id row) (r_name row) (r_quantity row) (r_unit row) (r_low_stock row)
    (r_last_updated row).

Definition addFailedStatus : string := "❌ Failed to add item. Please try again.".

Definition addedStatus (formattedItem : Item.t) : string :=
  "✅ Added " ++ Item.name formattedItem ++ " to inventory".

(** [addSampleItem].  Reading [data[0].id] on an empty answer throws, which
    the [catch] turns into the failure status like a reported error. *)
Definition addSampleItem (insert : NewRow -> InsertResponse)
  (inventory : list Item.t) (sent : Time) (st : State) : State :=
  let newItem :=
    mkNewRow
      ("Sample Item " ++ JS.numberToString (Z.of_nat (List.length inventory) + 1))
      20 "pieces" 5 sent in
  match insert newItem with
  | Inserted (row :: _) =>
      let formattedItem := formatRow row in
      setStatus (addedStatus formattedItem)
        (setInventory (fun _ => (inventory ++ [formattedItem])%list) st)
  | Inserted [] => setStatus addFailedStatus st
  | InsertRejected _ => setStatus addFailedStatus st
  end.

End Persisted.

(** ** What the table and the alert panel show *)

Module Render.

(** [item.quantity <= item.lowStock] *)
Definition isLowStock (item : Item.t) : bool :=
  Item.quantity item <=? Item.lowStock item.

(** The panel is rendered when
    [inventory.filter(item => item.quantity <= item.lowStock).length > 0]. *)
Definition alertVisible (inventory : list Item.t) : bool :=
  (0 <? List.length (filter isLowStock inventory))%nat.

Definition alertEntry (item : Item.t) : string :=
  Item.name item ++ " (" ++ JS.numberToString (Item.quantity item) ++ " "
  ++ Item.unit item ++ ")".

(** The text of the panel. *)
Definition alertText (inventory : list Item.t) : string :=
  JS.join ", " (map alertEntry (filter isLowStock inventory)) ++ " need restocking".

(** The row of [item] is highlighted when [updatedItemId === item.id]. *)
Definition highlighted (st : State) (item : Item.t) : bool :=
  match updatedItemId st with
  | Some i => Z.eqb i (Item.id item)
  | None => false
  end.

End Render.

(** ** The recognition session *)

Module Speech.

(** The component state the handlers touch. *)
Record Component : Type := mkComponent {
  state : State;
  isListening : bool;
  transcript : string
}.

Definition onstart (c : Component) : Component :=
  {| state := setStatus "Listening... Speak your command" (state c);
     isListening := true;
     transcript := "Listening for your voice command..." |}.

(** [updateInventory] is the reconciler the handler's closure holds. *)
Definition onresult (updateInventory : string -> Z -> bool -> State -> State)
  (voiceTranscript : string) (c : Component) : Component :=
  {| state := processVoiceCommand updateInventory voiceTranscript (state c);
     isListening := isListening c;
     transcript := "You said: " ++ quote ++ voiceTranscript ++ quote |}.

Definition onend (c : Component) : Component :=
  {| state := setStatus InMemory.idleStatus (state c);
     isListening := false;
     transcript := transcript c |}.

Definition onerror (error : string) (c : Component) : Component :=
  {| state := setStatus ("Error: " ++ error) (state c);
     isListening := false;
     transcript := "Error occurred. Please try again." |}.

(** What the recognition object sends to the component. *)
Inductive Event : Type :=
| Started
| Result (voiceTranscript : string)
| Ended
| Failed (error : string).

Definition step (updateInventory : string -> Z -> bool -> State -> State)
  (c : Component) (e : Event) : Component :=
  match e with
  | Started => onstart c
  | Result t => onresult updateInventory t c
  | Ended => onend c
  | Failed err => onerror err c
  end.

(** The component after a sequence of events, oldest first. *)
Definition run (updateInventory : string -> Z -> bool -> State -> State)
  (events : list Event) (c : Component) : Component :=
  fold_left (step updateInventory) events c.

(** [toggleVoiceRecognition]: what the click asks of the recognition object
    ([supported] is [recognitionRef.current] being set). *)
Inductive Request : Type := AlertUnsupported | Stop | Start.

Definition toggleVoiceRecognition (supported : bool) (c : Component) : Request :=
  if negb supported then AlertUnsupported
  else if isListening c then Stop else Start.

End Speech.


(** ** Vocabulary of the statements *)

Ltac each_ascii a := destruct a as [[|] [|] [|] [|] [|] [|] [|] [|]].

Ltac unpack :=
  repeat match goal with
    | H : exists _, _ |- _ => destruct H
    | H : _ /\ _ |- _ => destruct H
    | H : _ \/ _ |- _ => destruct H
    end;
  subst.

(** [t] occurs in [s]. *)
Definition Substring (t s : string) : Prop := exists pre post, s = pre ++ t ++ post.

(** [s'] is what is left of [s] after some leading text. *)
Definition Suffix (s' s : string) : Prop := exists x, s = x ++ s'.

Fixpoint allChars (cls : ascii -> bool) (s : string) : bool :=
  match s with
  | EmptyString => true
  | String a s' => cls a && allChars cls s'
  end.

Fixpoint anyChar (cls : ascii -> bool) (s : string) : bool :=
  match s with
  | EmptyString => false
  | String a s' => cls a || anyChar cls s'
  end.

(** Positional base-10 value of a digit string. *)
Fixpoint decimalValue (s : string) : Z :=
  match s with
  | EmptyString => 0
  | String a s' => JS.digitValue a * 10 ^ Z.of_nat (String.length s') + decimalValue s'
  end.

(** A string of decimal digits, at least one. *)
Definition Numeral (s : string) : Prop :=
  s <> EmptyString /\ allChars JS.isDigit s = true.

(** Declarative reading of a pattern: [denotes r s c s' c'] when [r] can
    consume the text between [s] and its suffix [s'], taking the captures
    from [c] to [c'].  It forgets the priorities among alternatives. *)
Fixpoint denotes (r : regex) (s : string) (c : captures) (s' : string) (c' : captures)
  : Prop :=
  match r with
  | Lit l => stripLit l s = Some s' /\ c' = c
  | Plus cls | PlusLazy cls =>
      (exists x, x <> EmptyString /\ allChars cls x = true /\ s = x ++ s') /\ c' = c
  | Opt r1 => denotes r1 s c s' c' \/ (s' = s /\ c' = c)
  | Cap i r1 => exists c1, denotes r1 s c s' c1 /\ c' = (i, consumed s s') :: c1
  | Seq r1 r2 => exists s1 c1, denotes r1 s c s1 c1 /\ denotes r2 s1 c1 s' c'
  end.

Fixpoint captureFree (r : regex) : bool :=
  match r with
  | Lit _ | Plus _ | PlusLazy _ => true
  | Opt r1 => captureFree r1
  | Cap _ _ => false
  | Seq r1 r2 => captureFree r1 && captureFree r2
  end.

(** [Number.MAX_SAFE_INTEGER] *)
Definition MAX_SAFE_INTEGER : Z := 2 ^ 53 - 1.

(** A quantity on which the code's arithmetic is the integer one: a
    non-negative integer up to [MAX_SAFE_INTEGER]. *)
Definition SafeQuantity (z : Z) : Prop := 0 <= z <= MAX_SAFE_INTEGER.


(** The states the first variant can be in, over-approximated: a voice
    command or a click on "Add Item" runs with the ledger of some earlier
    render ([c] below; the first render for a voice command, which
    [Reachable_initial] provides); the remaining setters touch status and
    highlight only. *)
Inductive Reachable : State -> Prop :=
| Reachable_initial (t0 : Time) : Reachable (InMemory.initial t0)
| Reachable_command (st c : State) (now : Time) (command : string) :
    Reachable st -> Reachable c ->
    Reachable (processVoiceCommand (InMemory.updateInventory (inventory c) now)
                 command st)
| Reachable_add (st c st' : State) (now : Time) :
    Reachable st -> Reachable c ->
    InMemory.addSampleItem (inventory c) now st = Some st' ->
    Reachable st'
| Reachable_status (st : State) (msg : string) :
    Reachable st -> Reachable (setStatus msg st)
| Reachable_highlight (st : State) (i : option Z) :
    Reachable st -> Reachable (setUpdatedItemId i st).

(** Sample data: the state the first variant starts in, three of its items,
    a store that accepts every write and one that rejects every write. *)
Definition st0 : State := mkState (InMemory.seed 0) EmptyString None.
Definition lidocaine : Item.t := Item.mk 3 "Lidocaine" 8 "vials" 3 0.
Definition syringes : Item.t := Item.mk 1 "Syringes" 25 "pieces" 10 0.
Definition gloves : Item.t := Item.mk 4 "Gloves" 50 "pairs" 20 0.
Definition online : Persisted.Store := fun _ => Persisted.Accepted.
Definition offline : Persisted.Store := fun _ => Persisted.Rejected "offline".

(** * Properties *)

(** ** Strings *)

Section StringFacts.

Local Open Scope nat_scope.

Lemma append_nil_r (s : string) : s ++ EmptyString = s.
Proof. induction s as [|a s IH]; simpl; [reflexivity | now rewrite IH]. Qed.

Lemma append_assoc (s t u : string) : (s ++ t) ++ u = s ++ t ++ u.
Proof. induction s as [|a s IH]; simpl; [reflexivity | now rewrite IH]. Qed.

Lemma length_append (s t : string) :
  String.length (s ++ t) = String.length s + String.length t.
Proof. induction s as [|a s IH]; simpl; [reflexivity | now rewrite IH]. Qed.

Lemma length_zero (s : string) : String.length s = 0 -> s = EmptyString.
Proof. destruct s; simpl; [reflexivity | discriminate]. Qed.

(** [startsWith] and [includes] against the textbook notions of prefix and
    substring. *)
Lemma startsWith_spec (s t : string) :
  JS.startsWith s t = true <-> exists post, s = t ++ post.
Proof.
  revert s; induction t as [|b t IH]; intros s; simpl.
  - split; [intros _; now exists s | reflexivity].
  - destruct s as [|a s].
    + split; [discriminate | intros [post H]; discriminate].
    + rewrite andb_true_iff, Ascii.eqb_eq, IH. split.
      * intros [-> [post ->]]. now exists post.
      * intros [post H]. injection H as -> ->. split; [reflexivity | now exists post].
Qed.

Lemma includes_unfold (s t : string) :
  JS.includes s t =
  if JS.startsWith s t then true
  else match s with EmptyString => false | String _ s' => JS.includes s' t end.
Proof. destruct s; reflexivity. Qed.

Lemma includes_spec (s t : string) : JS.includes s t = true <-> Substring t s.
Proof.
  unfold Substring. split.
  - induction s as [|a s IH]; rewrite includes_unfold;
      destruct (JS.startsWith _ t) eqn:E.
    + intros _. apply startsWith_spec in E as [post ->]. now exists EmptyString, post.
    + discriminate.
    + intros _. apply startsWith_spec in E as [post ->]. now exists EmptyString, post.
    + intros H. destruct (IH H) as (pre & post & ->). now exists (String a pre), post.
  - intros (pre & post & ->). induction pre as [|a pre IH]; rewrite includes_unfold.
    + simpl. replace (JS.startsWith (t ++ post) t) with true; [reflexivity|].
      symmetry. apply startsWith_spec. now exists post.
    + destruct (JS.startsWith _ t); [reflexivity | exact IH].
Qed.

Lemma includes_false_spec (s t : string) : JS.includes s t = false <-> ~ Substring t s.
Proof.
  rewrite <- includes_spec. destruct (JS.includes s t); split; intros H;
    try reflexivity; try discriminate.
  now exfalso; apply H.
Qed.

(** A substring as long as the whole is the whole. *)
Lemma includes_same_length (s t : string) :
  JS.includes s t = true -> String.length s = String.length t -> s = t.
Proof.
  intros H L. apply includes_spec in H as (pre & post & ->).
  rewrite !length_append in L.
  assert (pre = EmptyString) as -> by (apply length_zero; lia).
  assert (post = EmptyString) as -> by (apply length_zero; lia).
  simpl. apply append_nil_r.
Qed.

Lemma length_toLowerCase (s : string) :
  String.length (JS.toLowerCase s) = String.length s.
Proof. induction s as [|a s IH]; simpl; [reflexivity | now rewrite IH]. Qed.

Lemma toLowerCase_append (s t : string) :
  JS.toLowerCase (s ++ t) = JS.toLowerCase s ++ JS.toLowerCase t.
Proof. induction s as [|a s IH]; simpl; [reflexivity | now rewrite IH]. Qed.

Lemma lowerChar_not_upper (a : ascii) : JS.isUpper (JS.lowerChar a) = false.
Proof. each_ascii a; reflexivity. Qed.

Lemma lowerChar_idem (a : ascii) : JS.lowerChar (JS.lowerChar a) = JS.lowerChar a.
Proof. each_ascii a; reflexivity. Qed.

Lemma lowerChar_digit (a : ascii) : JS.isDigit (JS.lowerChar a) = JS.isDigit a.
Proof. each_ascii a; reflexivity. Qed.

Lemma toLowerCase_idem (s : string) :
  JS.toLowerCase (JS.toLowerCase s) = JS.toLowerCase s.
Proof.
  induction s as [|a s IH]; simpl; [reflexivity | now rewrite IH, lowerChar_idem].
Qed.

End StringFacts.

(** ** The matcher is sound for the declarative reading *)

Section RegexFacts.

Local Open Scope nat_scope.

Lemma Suffix_refl (s : string) : Suffix s s.
Proof. now exists EmptyString. Qed.

Lemma Suffix_trans (s1 s2 s3 : string) : Suffix s1 s2 -> Suffix s2 s3 -> Suffix s1 s3.
Proof. intros [x ->] [y ->]. exists (y ++ x). now rewrite append_assoc. Qed.

Lemma Suffix_cons (a : ascii) (s' s : string) : Suffix s' s -> Suffix s' (String a s).
Proof. intros [x ->]. now exists (String a x). Qed.

Lemma Suffix_Substring (x s' s : string) : Suffix (x ++ s') s -> Substring x s.
Proof. intros [pre ->]. now exists pre, s'. Qed.

Lemma consumed_append (x s' : string) : consumed (x ++ s') s' = x.
Proof.
  unfold consumed. rewrite length_append.
  replace (String.length x + String.length s' - String.length s') with (String.length x) by lia.
  induction x as [|a x IH]; simpl.
  - destruct s'; reflexivity.
  - now rewrite IH.
Qed.

Lemma stripLit_Suffix (l s s' : string) : stripLit l s = Some s' -> Suffix s' s.
Proof.
  revert s; induction l as [|b l IH]; intros s; simpl.
  - intros [= ->]. apply Suffix_refl.
  - destruct s as [|a s]; [discriminate|].
    destruct (Ascii.eqb _ _); [|discriminate].
    intros H. apply Suffix_cons. now apply IH.
Qed.

Lemma starGreedy_sound cls k s c res :
  starGreedy cls k s c = Some res ->
  exists x s', allChars cls x = true /\ s = x ++ s' /\ k s' c = Some res.
Proof.
  induction s as [|a s IH]; simpl.
  - intros H. now exists EmptyString, EmptyString.
  - destruct (cls a) eqn:Ea.
    + destruct (starGreedy cls k s c) eqn:E.
      * intros [= ->]. destruct (IH eq_refl) as (x & s' & Hx & -> & Hk).
        exists (String a x), s'. simpl. now rewrite Ea, Hx.
      * intros H. now exists EmptyString, (String a s).
    + intros H. now exists EmptyString, (String a s).
Qed.

Lemma starLazy_sound cls k s c res :
  starLazy cls k s c = Some res ->
  exists x s', allChars cls x = true /\ s = x ++ s' /\ k s' c = Some res.
Proof.
  induction s as [|a s IH]; simpl.
  - destruct (k EmptyString c) eqn:E; [|discriminate].
    intros [= ->]. now exists EmptyString, EmptyString.
  - destruct (k (String a s) c) eqn:E.
    + intros [= ->]. now exists EmptyString, (String a s).
    + destruct (cls a) eqn:Ea; [|discriminate].
      intros H. destruct (IH H) as (x & s' & Hx & -> & Hk).
      exists (String a x), s'. simpl. now rewrite Ea, Hx.
Qed.

Theorem run_sound (r : regex) : forall k s c res,
  run r k s c = Some res ->
  exists s' c', denotes r s c s' c' /\ k s' c' = Some res.
Proof.
  induction r as [l | cls | cls | r1 IH1 | i r1 IH1 | r1 IH1 r2 IH2];
    intros k s c res; simpl.
  - destruct (stripLit l s) as [s'|] eqn:E; [|discriminate].
    intros H. now exists s', c.
  - destruct s as [|a s]; [discriminate|].
    destruct (cls a) eqn:Ea; [|discriminate].
    intros H. apply starGreedy_sound in H as (x & s' & Hx & -> & Hk).
    exists s', c. repeat split; [|exact Hk].
    exists (String a x). simpl. rewrite Ea, Hx. now repeat split.
  - destruct s as [|a s]; [discriminate|].
    destruct (cls a) eqn:Ea; [|discriminate].
    intros H. apply starLazy_sound in H as (x & s' & Hx & -> & Hk).
    exists s', c. repeat split; [|exact Hk].
    exists (String a x). simpl. rewrite Ea, Hx. now repeat split.
  - destruct (run r1 k s c) eqn:E.
    + intros [= ->]. destruct (IH1 _ _ _ _ E) as (s' & c' & Hd & Hk).
      exists s', c'. now split; [left|].
    + intros H. exists s, c. now split; [right|].
  - intros H. destruct (IH1 _ _ _ _ H) as (s' & c1 & Hd & Hk).
    exists s', ((i, consumed s s') :: c1). split; [now exists c1 | exact Hk].
  - intros H. destruct (IH1 _ _ _ _ H) as (s1 & c1 & Hd1 & H2).
    destruct (IH2 _ _ _ _ H2) as (s' & c' & Hd2 & Hk).
    exists s', c'. split; [now exists s1, c1 | exact Hk].
Qed.

Lemma denotes_Suffix (r : regex) : forall s c s' c',
  denotes r s c s' c' -> Suffix s' s.
Proof.
  induction r as [l | cls | cls | r1 IH1 | i r1 IH1 | r1 IH1 r2 IH2];
    intros s c s' c'; simpl.
  - intros [H _]. now apply stripLit_Suffix in H.
  - intros [(x & _ & _ & ->) _]. now exists x.
  - intros [(x & _ & _ & ->) _]. now exists x.
  - intros [H | [-> _]]; [now apply IH1 in H | apply Suffix_refl].
  - intros (c1 & H & _). now apply IH1 in H.
  - intros (s1 & c1 & H1 & H2). apply IH1 in H1. apply IH2 in H2.
    now apply Suffix_trans with s1.
Qed.

Lemma denotes_captureFree (r : regex) : forall s c s' c',
  captureFree r = true -> denotes r s c s' c' -> c' = c.
Proof.
  induction r as [l | cls | cls | r1 IH1 | i r1 IH1 | r1 IH1 r2 IH2];
    intros s c s' c'; simpl; intros F.
  - now intros [_ ->].
  - now intros [_ ->].
  - now intros [_ ->].
  - intros [H | [_ ->]]; [now apply IH1 in H | reflexivity].
  - discriminate.
  - apply andb_true_iff in F as [F1 F2].
    intros (s1 & c1 & H1 & H2). apply IH1 in H1; [|exact F1].
    apply IH2 in H2; [|exact F2]. congruence.
Qed.

(** A successful [exec] matched some suffix of the input. *)
Lemma exec_sound (r : regex) (s : string) (m : captures) :
  exec r s = Some m ->
  exists t s', Suffix t s /\ denotes r t [] s' m.
Proof.
  induction s as [|a s IH]; simpl.
  - destruct (run r accept EmptyString []) eqn:E; [|discriminate].
    intros [= ->]. apply run_sound in E as (s' & c' & Hd & [= ->]).
    exists EmptyString, s'. split; [apply Suffix_refl | exact Hd].
  - destruct (run r accept (String a s) []) eqn:E.
    + intros [= ->]. apply run_sound in E as (s' & c' & Hd & [= ->]).
      exists (String a s), s'. split; [apply Suffix_refl | exact Hd].
    + intros H. destruct (IH H) as (t & s' & Hs & Hd).
      exists t, s'. split; [now apply Suffix_cons | exact Hd].
Qed.

End RegexFacts.

(** ** What a match of a command pattern captures *)

Section PatternFacts.

Lemma Suffix_append (x s : string) : Suffix s (x ++ s).
Proof. now exists x. Qed.

Lemma Suffix_append_l (x y s : string) : Suffix (x ++ s) y -> Suffix s y.
Proof. intros H. eapply Suffix_trans; [apply Suffix_append | exact H]. Qed.

(** Close the hypotheses under transitivity of [Suffix]. *)
Ltac chain :=
  repeat match goal with
    | H : stripLit _ _ = Some _ |- _ => apply stripLit_Suffix in H
    | H : Suffix ?a ?b, H' : Suffix ?b ?c |- _ =>
        lazymatch goal with
        | _ : Suffix a c |- _ => fail
        | _ => pose proof (Suffix_trans _ _ _ H H')
        end
    | H : Suffix (?x ++ ?a) ?c |- _ =>
        lazymatch goal with
        | _ : Suffix a c |- _ => fail
        | _ => pose proof (Suffix_append_l _ _ _ H)
        end
    end.

(** Whichever of the four patterns matches, group 1 is a numeral and group 2
    some text, both taken from the input. *)
Lemma pattern_groups (p : regex) (s : string) (m : captures) :
  In p patterns -> exec p s = Some m ->
  exists d rest, group 1 m = Some d /\ Numeral d /\ Substring d s /\
                 group 2 m = Some rest /\ Substring rest s.
Proof.
  intros Hp H. apply exec_sound in H as (t & s' & Hs & Hd).
  simpl in Hp. destruct Hp as [<- | [<- | [<- | [<- | []]]]];
    cbn [pattern_used pattern_remove pattern_add pattern_trailing_used
         seq denotes ws num] in Hd;
    unpack; rewrite !consumed_append; chain;
    eexists; eexists; repeat split; try reflexivity; try eassumption;
    eapply Suffix_Substring; eassumption.
Qed.

Lemma firstMatch_Some (ps : list regex) (s : string) (i : Intent.t) :
  firstMatch ps s = Some i ->
  exists p m, In p ps /\ exec p s = Some m /\
    i = Intent.mk (JS.trim (matchGroup 2 m)) (JS.parseInt (matchGroup 1 m))
                  (test pattern_direction s).
Proof.
  induction ps as [|p ps IH]; simpl; [discriminate|].
  destruct (exec p s) as [m|] eqn:E.
  - intros [= <-]. exists p, m. now repeat split; [left|].
  - intros H. destruct (IH H) as (p' & m & Hin & He & ->).
    exists p', m. now repeat split; [right|].
Qed.

Lemma firstMatch_None (ps : list regex) (s : string) :
  firstMatch ps s = None <-> forall p, In p ps -> exec p s = None.
Proof.
  induction ps as [|p ps IH]; simpl.
  - split; [intros _ p [] | reflexivity].
  - destruct (exec p s) as [m|] eqn:E.
    + split; [discriminate|]. intros H. rewrite (H p) in E; [discriminate | now left].
    + rewrite IH. split.
      * intros H q [<- | Hq]; [exact E | now apply H].
      * intros H q Hq. apply H. now right.
Qed.

(** On lowercased text a lowercase literal matches up to case exactly when
    it matches verbatim. *)
Lemma stripLit_startsWith (l s : string) :
  JS.toLowerCase l = l -> JS.toLowerCase s = s ->
  match stripLit l s with Some _ => true | None => false end = JS.startsWith s l.
Proof.
  revert s; induction l as [|b l IH]; intros s Hl Hs; simpl; [reflexivity|].
  destruct s as [|a s]; [reflexivity|].
  simpl in Hl, Hs. injection Hl as Hb Hl. injection Hs as Ha Hs.
  rewrite Ha, Hb. destruct (Ascii.eqb a b); simpl; [now apply IH | reflexivity].
Qed.

Lemma test_Lit_includes (l s : string) :
  JS.toLowerCase l = l -> JS.toLowerCase s = s ->
  test (Lit l) s = JS.includes s l.
Proof.
  intros Hl. unfold test. induction s as [|a s IH]; intros Hs.
  - rewrite includes_unfold, <- stripLit_startsWith by assumption.
    simpl. now destruct (stripLit l EmptyString).
  - rewrite includes_unfold, <- stripLit_startsWith by assumption.
    simpl exec. destruct (stripLit l (String a s)); simpl; [reflexivity|].
    apply IH. simpl in Hs. now injection Hs.
Qed.

Lemma parseDigits_value (s : string) : forall acc,
  allChars JS.isDigit s = true ->
  JS.parseDigits acc s = acc * 10 ^ Z.of_nat (String.length s) + decimalValue s.
Proof.
  induction s as [|a s IH]; intros acc; simpl String.length; simpl allChars.
  - intros _. simpl. lia.
  - intros H. apply andb_true_iff in H as [Ha Hs].
    cbn [JS.parseDigits decimalValue]. rewrite Ha, IH by exact Hs.
    rewrite Nat2Z.inj_succ, Z.pow_succ_r by lia. ring.
Qed.

Lemma parseInt_value (s : string) :
  allChars JS.isDigit s = true -> JS.parseInt s = decimalValue s.
Proof. intros H. unfold JS.parseInt. rewrite parseDigits_value by exact H. lia. Qed.

Lemma decimalValue_nonneg (s : string) : 0 <= decimalValue s.
Proof.
  induction s as [|a s IH]; simpl; [lia|].
  unfold JS.digitValue.
  assert (0 <= 10 ^ Z.of_nat (String.length s)) by (apply Z.pow_nonneg; lia).
  nia.
Qed.

Lemma anyChar_toLowerCase (s : string) :
  anyChar JS.isDigit (JS.toLowerCase s) = anyChar JS.isDigit s.
Proof.
  induction s as [|a s IH]; simpl; [reflexivity | now rewrite IH, lowerChar_digit].
Qed.

Lemma anyChar_append (cls : ascii -> bool) (s t : string) :
  anyChar cls (s ++ t) = anyChar cls s || anyChar cls t.
Proof.
  induction s as [|a s IH]; simpl; [reflexivity | now rewrite IH, orb_assoc].
Qed.

Lemma Numeral_anyChar (d s : string) :
  Numeral d -> Substring d s -> anyChar JS.isDigit s = true.
Proof.
  intros [Hne Hd] (pre & post & ->). rewrite !anyChar_append.
  destruct d as [|a d]; [now elim Hne|]. simpl in Hd |- *.
  apply andb_true_iff in Hd as [-> _]. simpl. apply orb_true_r.
Qed.

(** The shape of every recognised command. *)
Lemma interpret_Some (command : string) (i : Intent.t) :
  interpret command = Some i ->
  exists p m d rest,
    In p patterns /\ exec p (JS.toLowerCase command) = Some m /\
    group 1 m = Some d /\ Numeral d /\ Substring d (JS.toLowerCase command) /\
    group 2 m = Some rest /\ Substring rest (JS.toLowerCase command) /\
    i = Intent.mk (JS.trim rest) (decimalValue d)
          (JS.includes (JS.toLowerCase command) "add").
Proof.
  unfold interpret. intros H.
  apply firstMatch_Some in H as (p & m & Hp & He & ->).
  destruct (pattern_groups _ _ _ Hp He) as (d & rest & H1 & Hn & Hd & H2 & Hr).
  exists p, m, d, rest. repeat split; try assumption; try apply Hn.
  unfold matchGroup. rewrite H1, H2.
  rewrite parseInt_value by apply Hn.
  unfold pattern_direction. rewrite test_Lit_includes;
    [reflexivity | reflexivity | apply toLowerCase_idem].
Qed.

End PatternFacts.

(** ** The reconciler *)

Section ReconcilerFacts.

Lemma matchesItem_spec (itemName : string) (inv : Item.t) :
  matchesItem itemName inv = true <->
  Substring itemName (JS.toLowerCase (Item.name inv)) \/
  Substring (JS.toLowerCase (Item.name inv)) itemName.
Proof. unfold matchesItem. now rewrite orb_true_iff, !includes_spec. Qed.

Lemma find_None_spec (itemName : string) (l : list Item.t) :
  find (matchesItem itemName) l = None <->
  forall inv, In inv l ->
    ~ Substring itemName (JS.toLowerCase (Item.name inv)) /\
    ~ Substring (JS.toLowerCase (Item.name inv)) itemName.
Proof.
  split.
  - intros H inv Hin. pose proof (find_none _ _ H inv Hin) as Hm.
    split; intros Hs; assert (matchesItem itemName inv = true) as E
      by (apply matchesItem_spec; tauto); congruence.
  - intros H. destruct (find _ l) as [inv|] eqn:E; [|reflexivity].
    apply find_some in E as [Hin Hm]. apply matchesItem_spec in Hm.
    destruct (H inv Hin). tauto.
Qed.

(** [find] returns the first item, in ledger order, that matches. *)
Lemma find_first (f : Item.t -> bool) (l : list Item.t) (item : Item.t) :
  find f l = Some item ->
  exists i, nth_error l i = Some item /\ f item = true /\
    forall j y, (j < i)%nat -> nth_error l j = Some y -> f y = false.
Proof.
  induction l as [|x l IH]; simpl; [discriminate|].
  destruct (f x) eqn:E.
  - intros [= ->]. exists 0%nat. repeat split; [exact E|]. intros j y Hj. lia.
  - intros H. destruct (IH H) as (i & Hi & Hf & Hlt).
    exists (S i). repeat split; [exact Hi | exact Hf |].
    intros [|j] y Hj; simpl; [now intros [= <-] | apply Hlt; lia].
Qed.


Lemma map_hit (f : Item.t -> Item.t) (l : list Item.t) (item : Item.t) (i : nat) :
  nth_error l i = Some item -> nth_error (map f l) i = Some (f item).
Proof. intros H. now rewrite nth_error_map, H. Qed.

Lemma Substring_intro (pre t post : string) : Substring t (pre ++ t ++ post).
Proof. now exists pre, post. Qed.

Lemma Substring_append_r (t s pre : string) : Substring t s -> Substring t (pre ++ s).
Proof. intros (p & q & ->). exists (pre ++ p), q. now rewrite append_assoc. Qed.

Lemma Substring_append_l (t s post : string) : Substring t s -> Substring t (s ++ post).
Proof. intros (p & q & ->). exists p, (q ++ post). now rewrite !append_assoc. Qed.

Lemma join_lists (sep x : string) (l : list string) :
  In x l -> Substring x (JS.join sep l).
Proof.
  induction l as [|y l IH]; [intros []|].
  intros [-> | Hin].
  - destruct l; simpl.
    + exists EmptyString, EmptyString. simpl. now rewrite append_nil_r.
    + now exists EmptyString, (sep ++ JS.join sep (s :: l)).
  - destruct l as [|z l]; [destruct Hin|].
    change (JS.join sep (y :: z :: l)) with (y ++ sep ++ JS.join sep (z :: l)).
    apply Substring_append_r, Substring_append_r, IH, Hin.
Qed.

Lemma notFoundStatus_lists (itemName : string) (l : list Item.t) :
  Substring itemName (notFoundStatus itemName l) /\
  forall inv, In inv l -> Substring (Item.name inv) (notFoundStatus itemName l).
Proof.
  unfold notFoundStatus. cbv zeta. split.
  - do 2 apply Substring_append_r. apply (Substring_intro EmptyString).
  - intros inv Hin. do 5 apply Substring_append_r.
    apply join_lists, in_map, Hin.
Qed.

Lemma failedStatus_names (item : Item.t) :
  Substring (Item.name item) (failedStatus item).
Proof. unfold failedStatus. apply Substring_intro. Qed.

Lemma statuses_distinct (item it : Item.t) (a : bool) (q nq : Z) (f : string)
  (l : list Item.t) :
  failedStatus item <> updatedStatus a q it nq /\
  failedStatus item <> notFoundStatus f l /\
  failedStatus item <> unrecognizedStatus /\
  unrecognizedStatus <> updatedStatus a q it nq /\
  unrecognizedStatus <> notFoundStatus f l /\
  notFoundStatus f l <> updatedStatus a q it nq.
Proof.
  unfold failedStatus, updatedStatus, notFoundStatus, unrecognizedStatus.
  repeat split; simpl; discriminate.
Qed.

(** *** Quantity arithmetic *)

Lemma SafeQuantity_adjusted (isAdding : bool) (Q N : Z) :
  SafeQuantity N -> SafeQuantity Q ->
  (isAdding = true -> Q + N <= MAX_SAFE_INTEGER) ->
  SafeQuantity (if isAdding then Q + N else Z.max 0 (Q - N)).
Proof.
  unfold SafeQuantity. intros HN HQ HA. destruct isAdding; [specialize (HA eq_refl)|]; lia.
Qed.



End ReconcilerFacts.

(** *** Frame of a reconciliation *)




(** *** Rejected writes *)

(** C5.  In the persisted variant, when the fragment resolves to [item]:
    if the store rejects the write, the ledger and the highlight are the ones
    before the call and the status is the failure message, which names the
    item and differs from the success, not-found and unrecognised messages;
    and the ledger can differ from the one before the call only if the store
    accepted the write. *)
Theorem rejected_write_keeps_ledger
  (supabase : Persisted.Store) (ledger : list Item.t) (sent now : Time)
  (itemName : string) (N : Z) (isAdding : bool) (st : State) (item : Item.t) :
  find (matchesItem itemName) ledger = Some item ->
  let newQuantity :=
    if isAdding then Item.quantity item + N else Z.max 0 (Item.quantity item - N) in
  let answer := supabase (Persisted.mkRequest (Item.id item) newQuantity sent) in
  let st' := Persisted.updateInventory supabase ledger sent now itemName N isAdding st in
  ((exists error, answer = Persisted.Rejected error) ->
     inventory st' = inventory st /\
     updatedItemId st' = updatedItemId st /\
     status st' = failedStatus item /\
     Substring (Item.name item) (status st') /\
     status st' <> updatedStatus isAdding N item newQuantity /\
     status st' <> notFoundStatus itemName ledger /\
     status st' <> unrecognizedStatus) /\
  (inventory st' <> inventory st -> answer = Persisted.Accepted).
Proof.
  intros Hfind newQuantity answer st'. subst st'.
  unfold Persisted.updateInventory. rewrite Hfind. fold newQuantity. fold answer.
  split.
  - intros [error ->]. cbn [inventory status updatedItemId setStatus].
    pose proof (statuses_distinct item item isAdding N newQuantity itemName ledger)
      as (H1 & H2 & H3 & _).
    repeat split; try assumption. apply failedStatus_names.
  - destruct answer; [reflexivity|]. cbn [inventory setStatus]. now intros [].
Qed.

(** *** Unresolved fragments *)

(** What the reconcilers do when the fragment resolves to nothing in the
    ledger the handler captured: the state's ledger and highlight stay, and
    the status lists the fragment and the names of the captured ledger. *)
Lemma not_found_report
  (supabase : Persisted.Store) (captured : list Item.t) (sent now : Time)
  (itemName : string) (N : Z) (isAdding : bool) (st : State) :
  find (matchesItem itemName) captured = None ->
  forall st',
    st' = InMemory.updateInventory captured now itemName N isAdding st \/
    st' = Persisted.updateInventory supabase captured sent now itemName N isAdding st ->
    inventory st' = inventory st /\
    updatedItemId st' = updatedItemId st /\
    status st' = notFoundStatus itemName captured /\
    Substring itemName (status st') /\
    forall inv, In inv captured -> Substring (Item.name inv) (status st').
Proof.
  intros H st' Hst'.
  destruct (notFoundStatus_lists itemName captured) as [Hf Hn].
  unfold InMemory.updateInventory, Persisted.updateInventory in Hst'.
  rewrite H in Hst'. destruct Hst' as [-> | ->];
    cbn [inventory status updatedItemId setStatus]; now repeat split.
Qed.

(** C7.  What the code does when the known items are no longer those of the
    first render.  First variant: after one click on "Add Item" the ledger
    holds "Sample Item 6"; the command "remove 3 bandaids" is then reported
    as not found with the five names of the first render, and "Sample Item 6"
    is not in the status.  Second variant: the handler holds the empty array
    of the first render, so against a loaded ledger holding "Bandages" the
    same command is reported as not found with no name at all.  In both the
    ledger is left as it was. *)
Theorem not_found_lists_first_render :
  let st1 := InMemory.initial 0 in
  let st2 :=
    setInventory (fun l => (l ++ [Item.mk 6 "Sample Item 6" 20 "pieces" 5 9])%list) st1 in
  let st3 := InMemory.mounted 0 10 "remove 3 bandaids" st2 in
  let loaded := mkState [Item.mk 2 "Bandages" 15 "rolls" 5 0] EmptyString None in
  let st4 := Persisted.mounted online 5 6 "remove 3 bandaids" loaded in
  InMemory.addSampleItem (inventory st1) 9 st1 = Some st2 /\
  inventory st3 = inventory st2 /\
  In "Sample Item 6" (map Item.name (inventory st3)) /\
  status st3 = notFoundStatus "bandaids" (InMemory.seed 0) /\
  ~ Substring "Sample Item 6" (status st3) /\
  inventory st4 = inventory loaded /\
  status st4 = notFoundStatus "bandaids" [] /\
  ~ Substring "Bandages" (status st4).
Proof.
  cbv zeta. repeat split; try (vm_compute; reflexivity).
  - vm_compute. tauto.
  - apply includes_false_spec. vm_compute. reflexivity.
  - apply includes_false_spec. vm_compute. reflexivity.
Qed.

(** *** Unrecognised commands *)

(** C6.  When none of the four patterns matches the lowercased transcript,
    [processVoiceCommand] (a total function, over either reconciler) leaves
    ledger and highlight as they were and sets the status to the
    unrecognised-command message, which differs from every status a
    reconciler can set. *)
Theorem unmatched_command_no_mutation
  (updateInventory : string -> Z -> bool -> State -> State) (command : string)
  (st : State) :
  (forall p, In p patterns -> exec p (JS.toLowerCase command) = None) ->
  let st' := processVoiceCommand updateInventory command st in
  interpret command = None /\
  inventory st' = inventory st /\
  updatedItemId st' = updatedItemId st /\
  status st' = unrecognizedStatus /\
  forall item a q nq f l,
    status st' <> updatedStatus a q item nq /\
    status st' <> notFoundStatus f l /\
    status st' <> failedStatus item.
Proof.
  intros H st'. subst st'. apply firstMatch_None in H.
  unfold processVoiceCommand. fold (interpret command) in H. rewrite H.
  cbn [inventory status updatedItemId setStatus]. repeat split.
  - apply (statuses_distinct item item a q nq f l).
  - apply (statuses_distinct item item a q nq f l).
  - intros E. symmetry in E. revert E. apply (statuses_distinct item item a q nq f l).
Qed.

(** ** Item resolution *)

(** C2 (as amended).  The callback of [find] accepts an item for a fragment
    exactly when the item's lowercased name contains the fragment or the
    fragment contains the lowercased name, and resolution fails exactly when
    no item of the ledger is accepted.  An item named "Lidocaine" is accepted
    for "lidocaine" and for "vials of lidocaine", and also for "lido", which
    its lowercased name contains; "lidox" and "bandaids" are rejected. *)
Theorem item_resolution_bidirectional :
  (forall itemName inv,
     matchesItem itemName inv = true <->
     Substring itemName (JS.toLowerCase (Item.name inv)) \/
     Substring (JS.toLowerCase (Item.name inv)) itemName) /\
  (forall itemName ledger,
     find (matchesItem itemName) ledger = None <->
     forall inv, In inv ledger -> matchesItem itemName inv = false) /\
  (matchesItem "lidocaine" lidocaine = true /\
   matchesItem "vials of lidocaine" lidocaine = true /\
   matchesItem "lido" lidocaine = true /\
   matchesItem "lidox" lidocaine = false /\
   matchesItem "bandaids" lidocaine = false).
Proof.
  split; [exact matchesItem_spec|]. split; [|now repeat split].
  intros itemName ledger. split.
  - apply find_none.
  - intros H. destruct (find _ ledger) as [inv|] eqn:E; [|reflexivity].
    apply find_some in E as [Hin Hm]. rewrite (H inv Hin) in Hm. discriminate.
Qed.

(** Against C2 as written: "lido" is contained in "lidocaine", so it is not
    true that there is no containment in either direction. *)
Lemma lido_is_contained :
  ~ (JS.includes (JS.toLowerCase "Lidocaine") "lido" = false /\
     JS.includes "lido" (JS.toLowerCase "Lidocaine") = false).
Proof. intros [H _]. vm_compute in H. discriminate. Qed.

(** ** Direction *)


(** ** Quantity extraction *)

(** C8 (as amended).  For every transcript the interpreter matches, capture
    group 1 of the matching pattern is a non-empty run of decimal digits
    taken from the transcript; when its base-10 value is within the
    safe-integer range, the quantity is that value, a non-negative integer
    (zero included).  A transcript without a digit, such as one with a
    spelled-out number, is not matched. *)
Theorem quantity_is_numeral_value (command : string) (i : Intent.t) :
  interpret command = Some i ->
  (exists p m d,
     In p patterns /\ exec p (JS.toLowerCase command) = Some m /\
     group 1 m = Some d /\ Numeral d /\
     Substring d (JS.toLowerCase command) /\
     (decimalValue d <= MAX_SAFE_INTEGER ->
      Intent.quantity i = decimalValue d /\ SafeQuantity (Intent.quantity i))) /\
  anyChar JS.isDigit command = true /\
  interpret "I used five syringes" = None.
Proof.
  intros H. destruct (interpret_Some _ _ H) as (p & m & d & rest & H').
  destruct H' as (Hp & He & Hg & Hn & Hd & _ & _ & ->). cbn [Intent.quantity].
  split; [|split].
  - exists p, m, d. repeat split; try assumption; try apply Hn.
    + apply decimalValue_nonneg.
  - rewrite <- anyChar_toLowerCase. now apply Numeral_anyChar with d.
  - reflexivity.
Qed.

(** Against C8 as written: a matched transcript with quantity zero. *)
Lemma zero_quantity_is_matched :
  exists i, interpret "used 0 gloves" = Some i /\ ~ (0 < Intent.quantity i).
Proof.
  exists (Intent.mk "gloves" 0 false). split; [vm_compute; reflexivity | simpl; lia].
Qed.

(** ** The suffix "to inventory" *)

(** C4.  What the code does on "Add 10 gloves to inventory": the lazy group
    [(.+?)] is followed only by an optional group, so it stops after one
    character and the fragment is "g".  Against a ledger holding only Gloves
    the quantity still becomes 60, since "gloves" contains "g"; against the
    ledger the component starts with, the first item whose name contains "g"
    is Syringes, which receives the ten units. *)
Theorem add_gloves_to_inventory_fragment :
  let command := "Add 10 gloves to inventory" in
  let gloves q t := Item.mk 4 "Gloves" q "pairs" 20 t in
  interpret command = Some (Intent.mk "g" 10 true) /\
  inventory (InMemory.handle [gloves 50 0] 1 command
               (mkState [gloves 50 0] EmptyString None))
    = [gloves 60 1] /\
  inventory (InMemory.mounted 0 1 command (mkState (InMemory.seed 0) EmptyString None))
    = [ Item.mk 1 "Syringes" 35 "pieces" 10 1;
        Item.mk 2 "Bandages" 15 "rolls" 5 0;
        Item.mk 3 "Lidocaine" 8 "vials" 3 0;
        Item.mk 4 "Gloves" 50 "pairs" 20 0;
        Item.mk 5 "Gauze" 12 "packs" 5 0 ].
Proof. cbv zeta. repeat split; vm_compute; reflexivity. Qed.

(** ** Case of the fragment *)

Section CaseFacts.

Lemma lowerChar_changes_upper (a : ascii) : JS.isUpper a = true -> JS.lowerChar a <> a.
Proof. each_ascii a; intros H; try discriminate H; intros E; discriminate E. Qed.

Lemma toLowerCase_changes_upper (s : string) :
  anyChar JS.isUpper s = true -> JS.toLowerCase s <> s.
Proof.
  induction s as [|a s IH]; simpl; [discriminate|].
  intros H E. injection E as Ea Es. apply orb_true_iff in H as [H | H].
  - now apply (lowerChar_changes_upper a).
  - now apply IH.
Qed.

Lemma toLowerCase_no_upper (s : string) : anyChar JS.isUpper (JS.toLowerCase s) = false.
Proof.
  induction s as [|a s IH]; simpl; [reflexivity | now rewrite lowerChar_not_upper, IH].
Qed.

Lemma Substring_no_char (cls : ascii -> bool) (t s : string) :
  Substring t s -> anyChar cls s = false -> anyChar cls t = false.
Proof.
  intros (pre & post & ->). rewrite !anyChar_append, !orb_false_iff. tauto.
Qed.

Lemma trimStart_no_char (cls : ascii -> bool) (s : string) :
  anyChar cls s = false -> anyChar cls (JS.trimStart s) = false.
Proof.
  induction s as [|a s IH]; simpl; [reflexivity|].
  intros H. destruct (JS.isSpace a); [|exact H].
  apply orb_false_iff in H as [_ H]. now apply IH.
Qed.

Lemma trimEnd_no_char (cls : ascii -> bool) (s : string) :
  anyChar cls s = false -> anyChar cls (JS.trimEnd s) = false.
Proof.
  induction s as [|a s IH]; simpl; [reflexivity|].
  intros H. apply orb_false_iff in H as [Ha H]. specialize (IH H).
  destruct (JS.trimEnd s) as [|b t].
  - destruct (JS.isSpace a); simpl; [reflexivity | now rewrite Ha].
  - simpl in IH |- *. now rewrite Ha, IH.
Qed.

Lemma trim_no_char (cls : ascii -> bool) (s : string) :
  anyChar cls s = false -> anyChar cls (JS.trim s) = false.
Proof. intros H. now apply trimEnd_no_char, trimStart_no_char. Qed.

Lemma includes_lowercased (s : string) :
  JS.toLowerCase s <> s ->
  JS.includes (JS.toLowerCase s) s = false /\ JS.includes s (JS.toLowerCase s) = false.
Proof.
  intros Hne. split; apply not_true_is_false; intros E;
    apply includes_same_length in E.
  - contradiction.
  - apply length_toLowerCase.
  - now symmetry in E.
  - symmetry. apply length_toLowerCase.
Qed.

(** C10.  The reconciler compares the fragment as it receives it: when the
    fragment is an item's own name and that name has an uppercase letter,
    the lowercased name neither contains the fragment nor is contained in
    it, and against a ledger holding that item both variants report the item
    as not found and leave the ledger alone.  The pipeline is insensitive
    to case through the interpreter alone: a transcript and its lowercasing
    are interpreted alike, and no fragment the interpreter hands on has an
    uppercase letter. *)
Theorem fragment_is_not_lowercased
  (supabase : Persisted.Store) (sent now : Time) (N : Z) (isAdding : bool)
  (st : State) (item : Item.t) :
  anyChar JS.isUpper (Item.name item) = true ->
  let fragment := Item.name item in
  let st1 := InMemory.updateInventory [item] now fragment N isAdding st in
  let st2 := Persisted.updateInventory supabase [item] sent now fragment N isAdding st in
  JS.includes (JS.toLowerCase (Item.name item)) fragment = false /\
  JS.includes fragment (JS.toLowerCase (Item.name item)) = false /\
  status st1 = notFoundStatus fragment [item] /\ inventory st1 = inventory st /\
  status st2 = notFoundStatus fragment [item] /\ inventory st2 = inventory st /\
  (forall command, interpret command = interpret (JS.toLowerCase command)) /\
  (forall command i,
     interpret command = Some i -> anyChar JS.isUpper (Intent.itemName i) = false).
Proof.
  intros Hup fragment st1 st2. subst fragment st1 st2.
  pose proof (toLowerCase_changes_upper _ Hup) as Hne.
  destruct (includes_lowercased _ Hne) as [H1 H2].
  unfold InMemory.updateInventory, Persisted.updateInventory.
  cbn [find]. unfold matchesItem. rewrite H1, H2.
  cbn [orb inventory status setStatus]. repeat split.
  - intros command. unfold interpret. now rewrite toLowerCase_idem.
  - intros command i H. destruct (interpret_Some _ _ H) as (p & m & d & rest & H').
    destruct H' as (_ & _ & _ & _ & _ & _ & Hr & ->). cbn [Intent.itemName].
    apply trim_no_char. eapply Substring_no_char; [exact Hr|].
    apply toLowerCase_no_upper.
Qed.

End CaseFacts.

(** ** The claims at concrete inputs *)



(** A rejected write of "used 5 syringes". *)
Lemma rejected_write_keeps_ledger_witness :
  find (matchesItem "syringes") (inventory st0) = Some syringes /\
  let st' := Persisted.updateInventory offline (inventory st0) 6 7 "syringes" 5 false st0 in
  inventory st' = inventory st0 /\ status st' = failedStatus syringes.
Proof.
  split; [reflexivity|].
  pose proof (rejected_write_keeps_ledger offline (inventory st0) 6 7 "syringes" 5
                false st0 syringes eq_refl) as [H _].
  destruct (H (ex_intro _ "offline" eq_refl)) as (H1 & _ & H3 & _).
  split; [exact H1 | exact H3].
Defined.

(** "xyz please help" is matched by no pattern. *)
Lemma unmatched_command_no_mutation_witness :
  (forall p, In p patterns -> exec p (JS.toLowerCase "xyz please help") = None) /\
  let st' := InMemory.mounted 0 7 "xyz please help" st0 in
  inventory st' = inventory st0 /\ status st' = unrecognizedStatus.
Proof.
  assert (forall p, In p patterns -> exec p (JS.toLowerCase "xyz please help") = None)
    as H by (intros p [<- | [<- | [<- | [<- | []]]]]; reflexivity).
  split; [exact H|].
  pose proof (unmatched_command_no_mutation
                (InMemory.updateInventory (InMemory.seed 0) 7) "xyz please help" st0 H)
    as (_ & H1 & _ & H3 & _).
  split; [exact H1 | exact H3].
Defined.


(** "I used 5 syringes": the quantity is the value of the numeral "5". *)
Lemma quantity_is_numeral_value_witness :
  interpret "I used 5 syringes" = Some (Intent.mk "syringes" 5 false) /\
  exists p m d,
    In p patterns /\ exec p (JS.toLowerCase "I used 5 syringes") = Some m /\
    group 1 m = Some d /\ Numeral d /\
    Substring d (JS.toLowerCase "I used 5 syringes") /\
    (decimalValue d <= MAX_SAFE_INTEGER ->
     5 = decimalValue d /\ SafeQuantity 5).
Proof.
  split; [reflexivity|].
  exact (proj1 (quantity_is_numeral_value "I used 5 syringes"
                  (Intent.mk "syringes" 5 false) eq_refl)).
Defined.


(** The fragment "Gloves" against the item named "Gloves". *)
Lemma fragment_is_not_lowercased_witness :
  anyChar JS.isUpper (Item.name gloves) = true /\
  JS.includes (JS.toLowerCase "Gloves") "Gloves" = false /\
  JS.includes "Gloves" (JS.toLowerCase "Gloves") = false /\
  status (InMemory.updateInventory [gloves] 7 "Gloves" 2 false st0)
    = notFoundStatus "Gloves" [gloves].
Proof.
  split; [reflexivity|].
  pose proof (fragment_is_not_lowercased online 6 7 2 false st0 gloves eq_refl)
    as (H1 & H2 & H3 & _).
  split; [exact H1|]. split; [exact H2 | exact H3].
Defined.

(** *** The literal scenarios of the specification *)

Example scenario_used_5_syringes :
  let st' := InMemory.mounted 0 7 "I used 5 syringes" (InMemory.initial 0) in
  nth_error (inventory st') 0 = Some (Item.mk 1 "Syringes" 20 "pieces" 10 7) /\
  status st' = "✅ Used 5 Syringes. Stock: 25 → 20" /\
  updatedItemId st' = Some 1.
Proof. now vm_compute. Qed.

(** The second status quotes the quantity of the first render, 8, not the 6
    the ledger holds. *)
Example scenario_vials_of_lidocaine :
  let st1 := InMemory.mounted 0 7 "Used 2 vials of lidocaine" (InMemory.initial 0) in
  let st2 := InMemory.mounted 0 8 "remove 4 lidocaine" st1 in
  nth_error (inventory st1) 2 = Some (Item.mk 3 "Lidocaine" 6 "vials" 3 7) /\
  nth_error (inventory st2) 2 = Some (Item.mk 3 "Lidocaine" 2 "vials" 3 8) /\
  status st2 = "✅ Used 4 Lidocaine. Stock: 8 → 4".
Proof. now vm_compute. Qed.

(** The second variant as shipped resolves nothing: its handler holds the
    empty array of the first render. *)
Example scenario_persisted_mounted :
  let loaded := mkState (InMemory.seed 0) EmptyString None in
  let st' := Persisted.mounted online 6 7 "USED 20 Lidocaine" loaded in
  inventory st' = inventory loaded /\
  status st' = notFoundStatus "lidocaine" [].
Proof. now vm_compute. Qed.

(** * Further properties of the interpreter *)

Section InterpreterFacts.

Lemma starLazy_unfold cls k s c :
  starLazy cls k s c =
  match k s c with
  | Some r => Some r
  | None =>
      match s with
      | String a s' => if cls a then starLazy cls k s' c else None
      | EmptyString => None
      end
  end.
Proof. destruct s; reflexivity. Qed.

(** A capture-free optional group at the end of a pattern cannot fail and
    leaves the captures alone. *)
Lemma run_Opt_accept (r : regex) (s : string) (c : captures) :
  captureFree r = true -> run (Opt r) accept s c = Some c.
Proof.
  intros F. simpl. destruct (run r accept s c) as [res|] eqn:E; [|reflexivity].
  apply run_sound in E as (s' & c' & Hd & [= <-]).
  now rewrite (denotes_captureFree _ _ _ _ _ F Hd).
Qed.

(** A lazy group followed only by such an optional group stops after one
    character. *)
Lemma run_lazy_then_optional (i : nat) (cls : ascii -> bool) (r : regex)
  (s : string) (c res : captures) :
  captureFree r = true ->
  run (Seq (Cap i (PlusLazy cls)) (Opt r)) accept s c = Some res ->
  exists a s', s = String a s' /\ cls a = true /\ res = (i, String a EmptyString) :: c.
Proof.
  intros F. destruct s as [|a s']; [discriminate|].
  change (run (Seq (Cap i (PlusLazy cls)) (Opt r)) accept (String a s') c)
    with (if cls a
          then starLazy cls
                 (fun s'' c' =>
                    run (Opt r) accept s'' ((i, consumed (String a s') s'') :: c'))
                 s' c
          else None).
  destruct (cls a) eqn:Ea; [|discriminate].
  rewrite starLazy_unfold, run_Opt_accept by exact F.
  intros [= <-]. exists a, s'. repeat split; [exact Ea|].
  f_equal. f_equal. apply (consumed_append (String a EmptyString) s').
Qed.

Lemma stripLit_lowered (l s s' : string) :
  stripLit l s = Some s' ->
  exists x, s = x ++ s' /\ JS.toLowerCase x = JS.toLowerCase l.
Proof.
  revert s; induction l as [|b l IH]; intros s; simpl.
  - intros [= ->]. now exists EmptyString.
  - destruct s as [|a s]; [discriminate|].
    destruct (Ascii.eqb _ _) eqn:E; [|discriminate]. apply Ascii.eqb_eq in E.
    intros H. destruct (IH _ H) as (x & -> & Hx).
    exists (String a x). simpl. now rewrite E, Hx.
Qed.

(** A lowercase literal matched somewhere in a text occurs in the lowercased
    text. *)
Lemma literal_occurs (l t s' whole : string) :
  JS.toLowerCase l = l -> stripLit l t = Some s' -> Suffix t whole ->
  Substring l (JS.toLowerCase whole).
Proof.
  intros Hl H [pre ->]. apply stripLit_lowered in H as (x & -> & Hx).
  rewrite !toLowerCase_append, Hx, Hl.
  now exists (JS.toLowerCase pre), (JS.toLowerCase s').
Qed.

Lemma run_Seq (r1 r2 : regex) (k : cont) (s : string) (c : captures) :
  run (Seq r1 r2) k s c = run r1 (run r2 k) s c.
Proof. reflexivity. Qed.

Lemma exec_run (r : regex) (s : string) (m : captures) :
  exec r s = Some m -> exists t, Suffix t s /\ run r accept t [] = Some m.
Proof.
  induction s as [|a s IH]; simpl.
  - destruct (run r accept EmptyString []) eqn:E; [|discriminate].
    intros [= ->]. exists EmptyString. split; [apply Suffix_refl | exact E].
  - destruct (run r accept (String a s) []) eqn:E.
    + intros [= ->]. exists (String a s). split; [apply Suffix_refl | exact E].
    + intros H. destruct (IH H) as (t & Hs & Hr).
      exists t. split; [now apply Suffix_cons | exact Hr].
Qed.

(** Whatever follows the quantity, the third pattern captures one character
    of it. *)
Lemma pattern_add_group2 (s : string) (m : captures) :
  exec pattern_add s = Some m ->
  exists a, JS.isDot a = true /\ group 2 m = Some (String a EmptyString).
Proof.
  intros H. apply exec_run in H as (t & _ & H).
  unfold pattern_add in H. cbn [seq] in H.
  do 4 (rewrite run_Seq in H; apply run_sound in H as (? & ? & _ & H)).
  apply run_lazy_then_optional in H as (a & s' & _ & Ha & ->); [|reflexivity].
  now exists a.
Qed.

Lemma length_trimStart (s : string) :
  (String.length (JS.trimStart s) <= String.length s)%nat.
Proof.
  induction s as [|a s IH]; simpl; [lia|]. destruct (JS.isSpace a); simpl; lia.
Qed.

Lemma length_trimEnd (s : string) :
  (String.length (JS.trimEnd s) <= String.length s)%nat.
Proof.
  induction s as [|a s IH]; simpl; [lia|].
  destruct (JS.trimEnd s); [destruct (JS.isSpace a)|]; simpl in *; lia.
Qed.

Lemma length_trim (s : string) :
  (String.length (JS.trim s) <= String.length s)%nat.
Proof.
  unfold JS.trim. pose proof (length_trimEnd (JS.trimStart s)).
  pose proof (length_trimStart s). lia.
Qed.

(** X1.  When neither of the first two patterns matches and the third one
    does, the fragment handed to the reconciler is at most one character
    long, whatever the transcript says after the quantity. *)
Theorem add_pattern_fragment_one_char (command : string) (i : Intent.t) :
  exec pattern_used (JS.toLowerCase command) = None ->
  exec pattern_remove (JS.toLowerCase command) = None ->
  exec pattern_add (JS.toLowerCase command) <> None ->
  interpret command = Some i ->
  (String.length (Intent.itemName i) <= 1)%nat /\ Intent.isAdding i = true.
Proof.
  intros H1 H2 H3. unfold interpret, patterns. cbn [firstMatch]. rewrite H1, H2.
  destruct (exec pattern_add _) as [m|] eqn:E; [|contradiction].
  intros [= <-]. cbn [Intent.itemName Intent.isAdding].
  destruct (pattern_add_group2 _ _ E) as (a & _ & Hg).
  unfold matchGroup. rewrite Hg. split.
  - apply (length_trim (String a EmptyString)).
  - apply exec_sound in E as (t & s' & Hs & Hd).
    cbn [pattern_add seq denotes] in Hd. destruct Hd as (s1 & c1 & [Hl _] & _).
    unfold pattern_direction. rewrite test_Lit_includes;
      [|reflexivity | apply toLowerCase_idem].
    apply includes_spec. rewrite <- (toLowerCase_idem command).
    now apply literal_occurs with (t := t) (s' := s1).
Qed.

End InterpreterFacts.

Section KeywordFacts.

(** Close the hypotheses under the suffix facts they entail. *)
Ltac saturate :=
  repeat match goal with
    | H : stripLit ?l ?t = Some ?s |- _ =>
        lazymatch goal with
        | _ : Suffix s t |- _ => fail
        | _ => pose proof (stripLit_Suffix _ _ _ H)
        end
    | H : Suffix ?a ?b, H' : Suffix ?b ?c |- _ =>
        lazymatch goal with
        | _ : Suffix a c |- _ => fail
        | _ => pose proof (Suffix_trans _ _ _ H H')
        end
    | H : Suffix (?x ++ ?a) ?c |- _ =>
        lazymatch goal with
        | _ : Suffix a c |- _ => fail
        | _ => pose proof (Suffix_append_l _ _ _ H)
        end
    end.

Ltac keyword l :=
  match goal with
  | H : stripLit l ?t = Some ?s', Hs : Suffix ?t ?w |- Substring l (JS.toLowerCase ?w) =>
      exact (literal_occurs l t s' w eq_refl H Hs)
  end.

Lemma pattern_keyword (p : regex) (s : string) (m : captures) :
  In p patterns -> exec p s = Some m ->
  Substring "used" (JS.toLowerCase s) \/ Substring "remove" (JS.toLowerCase s) \/
  Substring "add" (JS.toLowerCase s).
Proof.
  intros Hp H. apply exec_sound in H as (t & s' & Hs & Hd).
  simpl in Hp. destruct Hp as [<- | [<- | [<- | [<- | []]]]];
    cbn [pattern_used pattern_remove pattern_add pattern_trailing_used
         seq denotes ws num] in Hd;
    unpack; saturate;
    first [ left; keyword "used"
          | right; left; keyword "remove"
          | right; right; keyword "add" ].
Qed.

Lemma recognised_has_keyword (command : string) (i : Intent.t) :
  interpret command = Some i ->
  Substring "used" (JS.toLowerCase command) \/
  Substring "remove" (JS.toLowerCase command) \/
  Substring "add" (JS.toLowerCase command).
Proof.
  intros H. destruct (interpret_Some _ _ H) as (p & m & d & rest & Hp & He & _).
  rewrite <- (toLowerCase_idem command). exact (pattern_keyword _ _ _ Hp He).
Qed.

(** X2.  A transcript in which none of the words "used", "remove" and "add"
    occurs, in any mix of cases, is not recognised. *)
Theorem no_keyword_unrecognised (command : string) :
  JS.includes (JS.toLowerCase command) "used" = false ->
  JS.includes (JS.toLowerCase command) "remove" = false ->
  JS.includes (JS.toLowerCase command) "add" = false ->
  interpret command = None.
Proof.
  rewrite !includes_false_spec. intros H1 H2 H3.
  destruct (interpret command) as [i|] eqn:E; [|reflexivity].
  destruct (recognised_has_keyword _ _ E) as [H | [H | H]]; contradiction.
Qed.

(** X3.  Every command that goes out as Consume contains "used" or "remove"
    and does not contain "add". *)
Theorem consume_needs_used_or_remove (command : string) (i : Intent.t) :
  interpret command = Some i ->
  Intent.isAdding i = false ->
  (Substring "used" (JS.toLowerCase command) \/
   Substring "remove" (JS.toLowerCase command)) /\
  ~ Substring "add" (JS.toLowerCase command).
Proof.
  intros H Hd. pose proof (recognised_has_keyword _ _ H) as Hk.
  destruct (interpret_Some _ _ H) as (p & m & d & rest & H').
  destruct H' as (_ & _ & _ & _ & _ & _ & _ & ->). cbn [Intent.isAdding] in Hd.
  apply includes_false_spec in Hd. split; [tauto | exact Hd].
Qed.

End KeywordFacts.

Section GreedyFacts.

(** The text is over, or goes on with a character outside the class. *)
Let stops (cls : ascii -> bool) (tail : string) : Prop :=
  tail = EmptyString \/ exists a tail', tail = String a tail' /\ cls a = false.

(** A greedy run whose continuation cannot fail takes every character of the
    class there is. *)
Lemma starGreedy_longest cls (f : string -> captures -> captures) s c :
  exists x tail,
    s = x ++ tail /\ allChars cls x = true /\ stops cls tail /\
    starGreedy cls (fun s' c' => Some (f s' c')) s c = Some (f tail c).
Proof.
  induction s as [|a s IH]; simpl.
  - exists EmptyString, EmptyString. repeat split. now left.
  - destruct (cls a) eqn:Ea.
    + destruct IH as (x & tail & -> & Hx & Ht & ->).
      exists (String a x), tail. simpl. rewrite Ea, Hx. now repeat split.
    + exists EmptyString, (String a s). repeat split. right. now exists a, s.
Qed.

Lemma run_greedy_capture (i : nat) (cls : ascii -> bool) (s : string) (c res : captures) :
  run (Cap i (Plus cls)) accept s c = Some res ->
  exists x tail,
    s = x ++ tail /\ x <> EmptyString /\ allChars cls x = true /\ stops cls tail /\
    res = (i, x) :: c.
Proof.
  destruct s as [|a s']; [discriminate|].
  change (run (Cap i (Plus cls)) accept (String a s') c)
    with (if cls a
          then starGreedy cls
                 (fun s'' c' => Some ((i, consumed (String a s') s'') :: c')) s' c
          else None).
  destruct (cls a) eqn:Ea; [|discriminate].
  destruct (starGreedy_longest cls
              (fun s'' c' => (i, consumed (String a s') s'') :: c') s' c)
    as (x & tail & Hs & Hx & Ht & E).
  intros H. cbv beta in E. unfold captures in E, H. rewrite E in H.
  injection H as <-. subst s'.
  exists (String a x), tail. simpl. rewrite Ea, Hx.
  repeat split; [discriminate | exact Ht |].
  f_equal. f_equal. apply (consumed_append (String a x) tail).
Qed.

(** X4.  In a match of the first or the second pattern, group 2 is the whole
    remainder of the line: it is followed by the end of the transcript or by
    a line terminator. *)
Theorem fragment_runs_to_end_of_line (p : regex) (s : string) (m : captures) :
  p = pattern_used \/ p = pattern_remove ->
  exec p s = Some m ->
  exists rest tail,
    group 2 m = Some rest /\ rest <> EmptyString /\ Suffix (rest ++ tail) s /\
    allChars JS.isDot rest = true /\
    (tail = EmptyString \/ exists a tail', tail = String a tail' /\ JS.isDot a = false).
Proof.
  intros Hp H. apply exec_run in H as (t & Hs & H).
  destruct Hp as [-> | ->]; unfold pattern_used, pattern_remove in H; cbn [seq] in H.
  - do 5 (rewrite run_Seq in H; apply run_sound in H as (? & ? & Hd & H);
          apply denotes_Suffix in Hd; pose proof (Suffix_trans _ _ _ Hd Hs) as Hs';
          clear Hs Hd; rename Hs' into Hs).
    apply run_greedy_capture in H as (rest & tail & -> & Hne & Hr & Ht & ->).
    exists rest, tail. now repeat split.
  - do 4 (rewrite run_Seq in H; apply run_sound in H as (? & ? & Hd & H);
          apply denotes_Suffix in Hd; pose proof (Suffix_trans _ _ _ Hd Hs) as Hs';
          clear Hs Hd; rename Hs' into Hs).
    apply run_greedy_capture in H as (rest & tail & -> & Hne & Hr & Ht & ->).
    exists rest, tail. now repeat split.
Qed.

End GreedyFacts.

(** * Further properties of the reconciler *)

Section LedgerFacts.

Lemma interpret_quantity_nonneg (command : string) (i : Intent.t) :
  interpret command = Some i -> 0 <= Intent.quantity i.
Proof.
  intros H. destruct (interpret_Some _ _ H) as (p & m & d & rest & H').
  destruct H' as (_ & _ & _ & _ & _ & _ & _ & ->). apply decimalValue_nonneg.
Qed.

Lemma updateInventory_identities
  (supabase : Persisted.Store) (ledger : list Item.t) (sent now : Time)
  (itemName : string) (N : Z) (isAdding : bool) (st : State) :
  forall st',
    st' = InMemory.updateInventory ledger now itemName N isAdding st \/
    st' = Persisted.updateInventory supabase ledger sent now itemName N isAdding st ->
    List.length (inventory st') = List.length (inventory st) /\
    map Item.id (inventory st') = map Item.id (inventory st) /\
    map Item.name (inventory st') = map Item.name (inventory st) /\
    map Item.unit (inventory st') = map Item.unit (inventory st) /\
    map Item.lowStock (inventory st') = map Item.lowStock (inventory st).
Proof.
  intros st' Hst'.
  assert (exists f : Item.t -> Item.t,
             inventory st' = map f (inventory st) /\
             forall inv, Item.id (f inv) = Item.id inv /\
                         Item.name (f inv) = Item.name inv /\
                         Item.unit (f inv) = Item.unit inv /\
                         Item.lowStock (f inv) = Item.lowStock inv) as (f & -> & Hf).
  { unfold InMemory.updateInventory, Persisted.updateInventory in Hst'.
    destruct (find (matchesItem itemName) ledger) as [item|].
    - destruct Hst' as [-> | ->]; [|destruct (supabase _)];
        cbn [inventory setUpdatedItemId setStatus setInventory];
        try (eexists; split; [reflexivity|]; intros inv; cbv beta;
             destruct (Z.eqb (Item.id inv) (Item.id item)); repeat split; reflexivity).
      exists (fun inv => inv). now rewrite map_id.
    - exists (fun inv => inv).
      destruct Hst' as [-> | ->]; cbn [inventory setStatus]; now rewrite map_id. }
  rewrite length_map, !map_map.
  repeat split; apply map_ext; intros inv; apply Hf.
Qed.

(** X5.  Whatever the outcome, whatever ledger the closure holds and whatever
    the store answers, a reconciliation keeps the length of the ledger and,
    position by position, the ids, names, units and low-stock thresholds. *)
Theorem reconcile_keeps_identities
  (supabase : Persisted.Store) (ledger : list Item.t) (sent now : Time)
  (itemName : string) (N : Z) (isAdding : bool) (st : State) :
  forall st',
    st' = InMemory.updateInventory ledger now itemName N isAdding st \/
    st' = Persisted.updateInventory supabase ledger sent now itemName N isAdding st ->
    List.length (inventory st') = List.length (inventory st) /\
    map Item.id (inventory st') = map Item.id (inventory st) /\
    map Item.name (inventory st') = map Item.name (inventory st) /\
    map Item.unit (inventory st') = map Item.unit (inventory st) /\
    map Item.lowStock (inventory st') = map Item.lowStock (inventory st).
Proof. exact (updateInventory_identities supabase ledger sent now itemName N isAdding st). Qed.

(** X6.  Whatever ledger the handler captured: if the quantities of the
    state and of the captured ledger are non-negative safe integers, and the
    parsed amount and, for an Add, its sums with those quantities stay
    within the safe range, then after the command every quantity of the
    ledger is again a non-negative safe integer, in both variants. *)
Theorem handle_keeps_quantities_nonnegative
  (supabase : Persisted.Store) (captured : list Item.t) (sent now : Time)
  (command : string) (st : State) :
  Forall (fun it => SafeQuantity (Item.quantity it)) (inventory st) ->
  Forall (fun it => SafeQuantity (Item.quantity it)) captured ->
  (forall i, interpret command = Some i ->
     Intent.quantity i <= MAX_SAFE_INTEGER /\
     (Intent.isAdding i = true ->
      forall it, In it (inventory st) \/ In it captured ->
        Item.quantity it + Intent.quantity i <= MAX_SAFE_INTEGER)) ->
  Forall (fun it => SafeQuantity (Item.quantity it))
    (inventory (InMemory.handle captured now command st)) /\
  Forall (fun it => SafeQuantity (Item.quantity it))
    (inventory (Persisted.handle supabase captured sent now command st)).
Proof.
  intros Hq Hc Hb. unfold InMemory.handle, Persisted.handle, processVoiceCommand.
  destruct (interpret command) as [i|] eqn:Ei; [|now split].
  pose proof (interpret_quantity_nonneg _ _ Ei) as HN.
  destruct (Hb i eq_refl) as [HM Hadd].
  assert (SafeQuantity (Intent.quantity i)) as HS by (split; assumption).
  unfold InMemory.updateInventory, Persisted.updateInventory.
  destruct (find _ captured) as [item|] eqn:Ef; [|now split].
  apply find_some in Ef as [Hin _].
  rewrite Forall_forall in Hq, Hc.
  split.
  - cbn [inventory setUpdatedItemId setStatus setInventory].
    apply Forall_map, Forall_forall. intros inv Hinv.
    destruct (Z.eqb _ _); [|now apply Hq].
    cbn [Item.quantity withQuantity].
    apply SafeQuantity_adjusted; [exact HS | now apply Hq |].
    intros Ha. apply Hadd; [exact Ha | now left].
  - destruct (supabase _); [|now apply Forall_forall].
    cbn [inventory setUpdatedItemId setStatus setInventory].
    apply Forall_map, Forall_forall. intros inv Hinv.
    destruct (Z.eqb _ _); [|now apply Hq].
    cbn [Item.quantity withQuantity].
    apply SafeQuantity_adjusted; [exact HS | now apply Hc |].
    intros Ha. apply Hadd; [exact Ha | now right].
Qed.

End LedgerFacts.

(** ** Successive commands of the first variant *)

Section Composition.

(** Two commands handled with the same captured ledger, as by the mounted
    handler: the in-memory variant adjusts the quantity the state holds,
    twice. *)
Lemma InMemory_twice (captured : list Item.t) (t1 t2 : Time) (itemName : string)
  (N1 N2 : Z) (d1 d2 : bool) (st : State) (item inv : Item.t) (i : nat) :
  find (matchesItem itemName) captured = Some item ->
  nth_error (inventory st) i = Some inv ->
  Item.id inv = Item.id item ->
  let m1 := InMemory.updateInventory captured t1 itemName N1 d1 st in
  let m2 := InMemory.updateInventory captured t2 itemName N2 d2 m1 in
  let q1 := if d1 then Item.quantity inv + N1 else Z.max 0 (Item.quantity inv - N1) in
  nth_error (inventory m2) i
  = Some (withQuantity inv (if d2 then q1 + N2 else Z.max 0 (q1 - N2)) t2).
Proof.
  intros Hf Hi Hid. cbv zeta. unfold InMemory.updateInventory. rewrite Hf.
  cbn [inventory setUpdatedItemId setStatus setInventory].
  rewrite map_map, nth_error_map, Hi. cbn [option_map].
  apply Z.eqb_eq in Hid. rewrite Hid. cbn [withQuantity Item.id Item.quantity].
  now rewrite Hid.
Qed.

End Composition.

(** X7.  In the first variant, whatever ledger the handler captured, with N,
    the quantity Q the state holds and Q + N within the safe range: adding N
    to an item and then consuming N from it gives back Q; consuming N and
    then adding N gives the larger of Q and N, so Q comes back only when N
    did not exceed it. *)
Theorem add_consume_round_trip
  (captured : list Item.t) (t1 t2 : Time) (itemName : string)
  (N : Z) (st : State) (item inv : Item.t) (i : nat) :
  find (matchesItem itemName) captured = Some item ->
  nth_error (inventory st) i = Some inv ->
  Item.id inv = Item.id item ->
  SafeQuantity N -> SafeQuantity (Item.quantity inv) ->
  Item.quantity inv + N <= MAX_SAFE_INTEGER ->
  let twice (d1 d2 : bool) :=
    let m1 := InMemory.updateInventory captured t1 itemName N d1 st in
    let m2 := InMemory.updateInventory captured t2 itemName N d2 m1 in
    option_map Item.quantity (nth_error (inventory m2) i) in
  twice true false = Some (Item.quantity inv) /\
  twice false true = Some (Z.max (Item.quantity inv) N).
Proof.
  intros Hf Hi Hid [HN _] [HQ _] _ twice. subst twice. cbv beta zeta. split.
  - rewrite (InMemory_twice captured t1 t2 itemName N N true false st item inv i Hf Hi Hid).
    cbn [option_map withQuantity Item.quantity]. apply f_equal. lia.
  - rewrite (InMemory_twice captured t1 t2 itemName N N false true st item inv i Hf Hi Hid).
    cbn [option_map withQuantity Item.quantity]. apply f_equal. lia.
Qed.

(** X8.  In the first variant, whatever ledger the handler captured, with
    N1, N2, the quantity Q the state holds and, for Add, Q + N1 + N2 within
    the safe range: two commands for the same fragment in the same direction
    by N1 and then N2 leave the item as one command by N1 + N2 at the later
    time leaves it. *)
Theorem reconciliations_accumulate
  (captured : list Item.t) (t1 t2 : Time) (itemName : string)
  (N1 N2 : Z) (isAdding : bool) (st : State) (item inv : Item.t) (i : nat) :
  find (matchesItem itemName) captured = Some item ->
  nth_error (inventory st) i = Some inv ->
  Item.id inv = Item.id item ->
  SafeQuantity N1 -> SafeQuantity N2 -> SafeQuantity (Item.quantity inv) ->
  N1 + N2 <= MAX_SAFE_INTEGER ->
  (isAdding = true -> Item.quantity inv + N1 + N2 <= MAX_SAFE_INTEGER) ->
  let m1 := InMemory.updateInventory captured t1 itemName N1 isAdding st in
  let m2 := InMemory.updateInventory captured t2 itemName N2 isAdding m1 in
  let m := InMemory.updateInventory captured t2 itemName (N1 + N2) isAdding st in
  nth_error (inventory m2) i = nth_error (inventory m) i.
Proof.
  intros Hf Hi Hid [H1 _] [H2 _] _ _ _. cbv zeta.
  rewrite (InMemory_twice captured t1 t2 itemName N1 N2 isAdding isAdding st item inv i
             Hf Hi Hid).
  unfold InMemory.updateInventory at 1. rewrite Hf.
  cbn [inventory setUpdatedItemId setStatus setInventory].
  rewrite (map_hit _ _ _ _ Hi). apply Z.eqb_eq in Hid. rewrite Hid.
  f_equal. unfold withQuantity. f_equal. destruct isAdding; lia.
Qed.

(** ** Which item a fragment resolves to *)

Section Resolution.

Lemma find_first_match (f : Item.t -> bool) (l1 l2 : list Item.t) (item : Item.t) :
  (forall x, In x l1 -> f x = false) -> f item = true ->
  find f (l1 ++ item :: l2) = Some item.
Proof.
  intros H1 Hitem. induction l1 as [|x l1 IH]; simpl.
  - now rewrite Hitem.
  - rewrite (H1 x) by now left. apply IH. intros y Hy. apply H1. now right.
Qed.

Lemma nth_error_middle (l1 l2 : list Item.t) (item : Item.t) :
  nth_error (l1 ++ item :: l2) (List.length l1) = Some item.
Proof. induction l1; simpl; [reflexivity | assumption]. Qed.

Lemma updatedStatus_names (isAdding : bool) (N : Z) (item : Item.t) (q : Z) :
  Substring (Item.name item) (updatedStatus isAdding N item q).
Proof.
  unfold updatedStatus. cbv zeta. do 5 apply Substring_append_r.
  apply (Substring_intro EmptyString).
Qed.

(** X9.  The fragment is resolved in the ledger the handler captured, in its
    order: when several captured items match, the first of them is the one
    reconciled.  Its id is highlighted, its name is in the status, and every
    item of the current ledger with another id, later matches included, is
    left as it was. *)
Theorem first_match_wins
  (supabase : Persisted.Store) (sent now : Time) (itemName : string) (N : Z)
  (isAdding : bool) (st : State) (l1 l2 : list Item.t) (item : Item.t) :
  (forall x, In x l1 -> matchesItem itemName x = false) ->
  matchesItem itemName item = true ->
  (forall r, supabase r = Persisted.Accepted) ->
  forall st',
    st' = InMemory.updateInventory (l1 ++ item :: l2) now itemName N isAdding st \/
    st' = Persisted.updateInventory supabase (l1 ++ item :: l2) sent now itemName N
            isAdding st ->
    updatedItemId st' = Some (Item.id item) /\
    Substring (Item.name item) (status st') /\
    forall j inv, nth_error (inventory st) j = Some inv ->
      Item.id inv <> Item.id item ->
      nth_error (inventory st') j = Some inv.
Proof.
  intros H1 Hitem Hacc st' Hst'.
  assert (find (matchesItem itemName) (l1 ++ item :: l2) = Some item) as Hf
    by now apply find_first_match.
  unfold InMemory.updateInventory, Persisted.updateInventory in Hst'.
  rewrite Hf, Hacc in Hst'.
  destruct Hst' as [-> | ->];
    cbn [inventory status updatedItemId setUpdatedItemId setStatus setInventory];
    (split; [reflexivity|]; split; [apply updatedStatus_names|];
     intros j inv Hj Hne; rewrite nth_error_map, Hj; cbn [option_map];
     apply Z.eqb_neq in Hne; now rewrite Hne).
Qed.

Lemma matchesItem_empty (inv : Item.t) : matchesItem EmptyString inv = true.
Proof. unfold matchesItem. now rewrite includes_unfold. Qed.

(** X10.  An empty fragment matches every item, so a command whose item text
    is blank ("used 5" followed by two spaces is one) resolves to the first
    item of the ledger the handler captured, whose id is highlighted, and
    leaves the items of other ids alone; when the captured ledger is empty
    it resolves to nothing, as any fragment does. *)
Theorem empty_fragment_hits_first_item
  (supabase : Persisted.Store) (sent now : Time) (N : Z) (isAdding : bool)
  (st : State) (item : Item.t) (rest : list Item.t) :
  (forall r, supabase r = Persisted.Accepted) ->
  forall st',
    st' = InMemory.updateInventory (item :: rest) now EmptyString N isAdding st \/
    st' = Persisted.updateInventory supabase (item :: rest) sent now EmptyString N
            isAdding st ->
    updatedItemId st' = Some (Item.id item) /\
    (forall j inv, nth_error (inventory st) j = Some inv ->
       Item.id inv <> Item.id item ->
       nth_error (inventory st') j = Some inv) /\
    interpret "used 5  " = Some (Intent.mk EmptyString 5 false) /\
    status (Persisted.updateInventory supabase [] sent now EmptyString N isAdding st)
      = notFoundStatus EmptyString [].
Proof.
  intros Hacc st' Hst'.
  unfold InMemory.updateInventory, Persisted.updateInventory in Hst'.
  cbn [find] in Hst'. rewrite matchesItem_empty, Hacc in Hst'.
  destruct Hst' as [-> | ->];
    cbn [inventory updatedItemId setUpdatedItemId setStatus setInventory];
    (split; [reflexivity|]; split; [|split; reflexivity];
     intros j inv Hj Hne; rewrite nth_error_map, Hj; cbn [option_map];
     apply Z.eqb_neq in Hne; now rewrite Hne).
Qed.

(** X11.  In the persisted variant, whatever ledger the handler captured:
    if the ledger differs from the one before the call, the fragment
    resolved, the store accepted a write carrying the resolved id, and every
    item of the ledger with that id now holds the quantity that was
    written. *)
Theorem ledger_change_was_written
  (supabase : Persisted.Store) (captured : list Item.t) (sent now : Time)
  (itemName : string) (N : Z) (isAdding : bool) (st : State) :
  let st' := Persisted.updateInventory supabase captured sent now itemName N
               isAdding st in
  inventory st' <> inventory st ->
  exists item request,
    find (matchesItem itemName) captured = Some item /\
    supabase request = Persisted.Accepted /\
    Persisted.row_id request = Item.id item /\
    Persisted.row_last_updated request = sent /\
    forall j inv', nth_error (inventory st') j = Some inv' ->
      Item.id inv' = Item.id item ->
      Item.quantity inv' = Persisted.row_quantity request.
Proof.
  cbv zeta. unfold Persisted.updateInventory.
  destruct (find (matchesItem itemName) captured) as [item|] eqn:Hf;
    [|now intros []].
  destruct (supabase _) eqn:Hs; [|now intros []].
  intros _. exists item. eexists. split; [reflexivity|]. split; [exact Hs|].
  cbn [inventory setUpdatedItemId setStatus setInventory Persisted.row_id
       Persisted.row_last_updated Persisted.row_quantity].
  split; [reflexivity|]. split; [reflexivity|].
  intros j inv' Hj Hid. rewrite nth_error_map in Hj.
  destruct (nth_error (inventory st) j) as [inv|]; [|discriminate].
  cbn [option_map] in Hj. injection Hj as <-.
  destruct (Z.eqb_spec (Item.id inv) (Item.id item)) as [E | E]; [reflexivity|].
  contradiction.
Qed.

End Resolution.

(** * Low stock *)

Section LowStock.

Lemma unique_id (l : list Item.t) (i j : nat) (x y : Item.t) :
  NoDup (map Item.id l) ->
  nth_error l i = Some x -> nth_error l j = Some y -> Item.id x = Item.id y ->
  x = y.
Proof.
  intros Hnd Hi Hj Hid. rewrite NoDup_nth_error in Hnd.
  assert (i = j) as ->.
  { apply Hnd.
    - rewrite length_map. apply nth_error_Some. congruence.
    - rewrite !nth_error_map, Hi, Hj. simpl. now rewrite Hid. }
  congruence.
Qed.

(** X12.  In the first variant, whatever ledger the handler captured, with
    the amount and the quantities of the ledger non-negative safe integers
    (and, for Add, their sums within the safe range): a Consume never takes
    an item out of low stock and an Add never puts one into it, at any
    position of the ledger. *)
Theorem low_stock_monotone
  (captured : list Item.t) (now : Time) (itemName : string) (N : Z)
  (isAdding : bool) (st : State) :
  SafeQuantity N ->
  Forall (fun it => SafeQuantity (Item.quantity it) /\
                    (isAdding = true -> Item.quantity it + N <= MAX_SAFE_INTEGER))
    (inventory st) ->
  let st' := InMemory.updateInventory captured now itemName N isAdding st in
  forall j it it',
    nth_error (inventory st) j = Some it ->
    nth_error (inventory st') j = Some it' ->
    (isAdding = false -> Render.isLowStock it = true -> Render.isLowStock it' = true) /\
    (isAdding = true -> Render.isLowStock it = false -> Render.isLowStock it' = false).
Proof.
  intros [HN _] Hq st' j it it' Hj Hj'. subst st'.
  assert (0 <= Item.quantity it) as Hit.
  { rewrite Forall_forall in Hq. apply Hq. eapply nth_error_In, Hj. }
  assert (it' = it \/
          (Item.lowStock it' = Item.lowStock it /\
           Item.quantity it' =
             if isAdding then Item.quantity it + N
             else Z.max 0 (Item.quantity it - N))) as [-> | [Hl Hq']].
  { unfold InMemory.updateInventory in Hj'.
    destruct (find (matchesItem itemName) captured) as [item|].
    - cbn [inventory setUpdatedItemId setStatus setInventory] in Hj'.
      rewrite nth_error_map, Hj in Hj'. injection Hj' as <-.
      destruct (Z.eqb _ _); [right; now split | now left].
    - left. cbn [inventory setStatus] in Hj'. congruence. }
  - split; intros _ H; exact H.
  - unfold Render.isLowStock. rewrite Hl, Hq'.
    split; intros ->; rewrite ?Z.leb_le, ?Z.leb_gt; lia.
Qed.

Lemma filter_nonempty (f : Item.t -> bool) (l : list Item.t) :
  (0 <? List.length (filter f l))%nat = true <-> exists x, In x l /\ f x = true.
Proof.
  rewrite Nat.ltb_lt. split.
  - destruct (filter f l) as [|x l'] eqn:E; simpl; [lia|]. intros _.
    exists x. apply filter_In. rewrite E. now left.
  - intros (x & Hx). apply filter_In in Hx.
    destruct (filter f l); [destruct Hx | simpl; lia].
Qed.

(** X13.  The alert panel is rendered exactly when some item has a quantity
    at or below its threshold, and its text then shows, for every such item,
    the name, the quantity and the unit. *)
Theorem alert_lists_low_stock_items (ledger : list Item.t) :
  (Render.alertVisible ledger = true <->
   exists it, In it ledger /\ Item.quantity it <= Item.lowStock it) /\
  (forall it, In it ledger -> Item.quantity it <= Item.lowStock it ->
     Substring (Item.name it ++ " (" ++ JS.numberToString (Item.quantity it) ++ " "
                ++ Item.unit it ++ ")")
       (Render.alertText ledger)).
Proof.
  split.
  - unfold Render.alertVisible. rewrite filter_nonempty.
    split; intros (it & Hin & H); exists it; (split; [exact Hin|]);
      unfold Render.isLowStock in *; now apply Z.leb_le.
  - intros it Hin Hlow. unfold Render.alertText.
    apply Substring_append_l, join_lists.
    apply (in_map Render.alertEntry), filter_In. split; [exact Hin|].
    now apply Z.leb_le.
Qed.

End LowStock.

(** * Item registration *)

Section Registration.

Lemma fold_max_ge (l : list Z) : forall a,
  a <= fold_left Z.max l a /\ forall x, In x l -> x <= fold_left Z.max l a.
Proof.
  induction l as [|y l IH]; intros a; simpl.
  - split; [lia | intros x []].
  - destruct (IH (Z.max a y)) as [H1 H2]. split; [lia|].
    intros x [<- | Hx]; [lia | now apply H2].
Qed.

Lemma maxOf_ge (xs : list Z) (m : Z) :
  InMemory.maxOf xs = Some m -> forall x, In x xs -> x <= m.
Proof.
  destruct xs as [|a l]; [discriminate|]. simpl.
  intros [= <-] x. destruct (fold_max_ge l a) as [H1 H2].
  intros [<- | Hx]; [exact H1 | now apply H2].
Qed.

Lemma addSampleItem_shape (ledger : list Item.t) (now : Time) (st st' : State) :
  InMemory.addSampleItem ledger now st = Some st' ->
  exists newItem,
    inventory st' = (ledger ++ [newItem])%list /\
    status st' = status st /\ updatedItemId st' = updatedItemId st /\
    (forall it, In it ledger -> Item.id it < Item.id newItem) /\
    Item.quantity newItem = 20 /\ Item.lowStock newItem = 5 /\
    Item.lastUpdated newItem = now.
Proof.
  unfold InMemory.addSampleItem.
  destruct (InMemory.maxOf (map Item.id ledger)) as [m|] eqn:E; [|discriminate].
  intros [= <-]. eexists. split; [reflexivity|]. repeat split.
  intros it Hin. cbn [Item.id].
  pose proof (maxOf_ge _ _ E (Item.id it) (in_map Item.id _ _ Hin)). lia.
Qed.

(** X14.  Clicking "Add Item" on a non-empty ledger appends one item and
    leaves the items already there as they are; the new item's id is larger
    than every id of the ledger, so unique ids stay unique.  Status and
    highlight are not touched. *)
Theorem addSampleItem_appends_fresh (now : Time) (st : State) :
  inventory st <> [] ->
  exists st' newItem,
    InMemory.addSampleItem (inventory st) now st = Some st' /\
    inventory st' = (inventory st ++ [newItem])%list /\
    (forall it, In it (inventory st) -> Item.id it < Item.id newItem) /\
    (NoDup (map Item.id (inventory st)) -> NoDup (map Item.id (inventory st'))) /\
    status st' = status st /\ updatedItemId st' = updatedItemId st.
Proof.
  intros Hne.
  destruct (InMemory.addSampleItem (inventory st) now st) as [st'|] eqn:E.
  - destruct (addSampleItem_shape _ _ _ _ E) as (newItem & Hl & Hs & Hu & Hid & _).
    exists st', newItem. repeat split; try assumption.
    intros Hnd. rewrite Hl, map_app. simpl.
    apply NoDup_app; [exact Hnd | repeat constructor; intros [] |].
    intros x Hx [<- | []]. apply in_map_iff in Hx as (it & Hx & Hin).
    specialize (Hid it Hin). lia.
  - unfold InMemory.addSampleItem in E.
    destruct (inventory st); [contradiction | discriminate].
Qed.

End Registration.

(** * Invariants of the first variant *)

Section Invariants.

(** What every reachable ledger satisfies. *)
Let Inv (l : list Item.t) : Prop :=
  NoDup (map Item.id l) /\
  Forall (fun t => 0 <= t) (map Item.lowStock l) /\
  firstn 5 (map Item.id l) = [1; 2; 3; 4; 5] /\
  firstn 5 (map Item.name l) = ["Syringes"; "Bandages"; "Lidocaine"; "Gloves"; "Gauze"].

Lemma firstn_app_long {A : Type} (n : nat) (l l' : list A) (x : list A) :
  firstn n l = x -> List.length x = n -> firstn n (l ++ l') = x.
Proof.
  intros H Hlen. rewrite firstn_app.
  assert (n <= List.length l)%nat as Hle.
  { rewrite <- Hlen, <- H, length_firstn. lia. }
  replace (n - List.length l)%nat with 0%nat by lia.
  simpl. now rewrite app_nil_r.
Qed.

Lemma Inv_initial (t0 : Time) : Inv (inventory (InMemory.initial t0)).
Proof.
  unfold Inv. cbn. repeat split.
  - repeat constructor; simpl; intuition discriminate.
  - repeat constructor; lia.
Qed.

Lemma Inv_command (st c : State) (now : Time) (command : string) :
  Inv (inventory st) ->
  Inv (inventory (processVoiceCommand (InMemory.updateInventory (inventory c) now)
                    command st)).
Proof.
  intros (Hnd & Hth & Hid & Hname). unfold processVoiceCommand.
  destruct (interpret command) as [i|] eqn:Ei; [|now repeat split].
  destruct (updateInventory_identities online (inventory c) 0 now (Intent.itemName i)
              (Intent.quantity i) (Intent.isAdding i) st _ (or_introl eq_refl))
    as (_ & Eid & Ename & _ & Eth).
  unfold Inv. rewrite Eid, Ename, Eth. now repeat split.
Qed.

Lemma Inv_add (st c st' : State) (now : Time) :
  Inv (inventory c) ->
  InMemory.addSampleItem (inventory c) now st = Some st' ->
  Inv (inventory st').
Proof.
  intros (Hnd & Hth & Hid & Hname) H.
  destruct (addSampleItem_shape _ _ _ _ H) as (x & -> & _ & _ & Hfresh & Hx & Hl & _).
  unfold Inv. rewrite !map_app. repeat split.
  - apply NoDup_app; [exact Hnd | repeat constructor; intros [] |].
    intros y Hy [<- | []]. apply in_map_iff in Hy as (it & Hy & Hin).
    specialize (Hfresh it Hin). lia.
  - apply Forall_app. split; [exact Hth|]. repeat constructor. simpl. lia.
  - now apply firstn_app_long.
  - now apply firstn_app_long.
Qed.

(** X15.  Every state the first variant can reach, by voice commands and
    clicks on "Add Item" run from the ledger of any earlier render, keeps the
    ids of the ledger unique, every threshold non-negative, and the five
    initial items in the first five positions under their ids and names.  In
    particular the ledger is never empty, so "Add Item" always yields an
    integer id, and every id of the first render's ledger, which the voice
    handler holds, is still in the ledger. *)
Theorem reachable_ledger_invariant (st : State) :
  Reachable st ->
  NoDup (map Item.id (inventory st)) /\
  Forall (fun it => 0 <= Item.lowStock it) (inventory st) /\
  firstn 5 (map Item.id (inventory st)) = [1; 2; 3; 4; 5] /\
  firstn 5 (map Item.name (inventory st))
    = ["Syringes"; "Bandages"; "Lidocaine"; "Gloves"; "Gauze"] /\
  (forall now st2, exists st', InMemory.addSampleItem (inventory st) now st2 = Some st') /\
  (forall t0 item, In item (InMemory.seed t0) ->
     In (Item.id item) (map Item.id (inventory st))).
Proof.
  intros H.
  assert (Inv (inventory st)) as (Hnd & Hth & Hid & Hname).
  { induction H as [t0 | st c now command _ IH _ _ | st c st' now _ _ _ IHc Hadd
                   | st msg _ IH | st i _ IH].
    - apply Inv_initial.
    - now apply Inv_command.
    - now apply Inv_add with st c now.
    - exact IH.
    - exact IH. }
  repeat split; try assumption.
  - now rewrite Forall_map in Hth.
  - intros now st2. unfold InMemory.addSampleItem.
    destruct (inventory st) as [|x l]; [discriminate|]. simpl. eauto.
  - intros t0 item Hin.
    assert (In (Item.id item) (firstn 5 (map Item.id (inventory st)))) as Hf.
    { rewrite Hid. destruct Hin as [<- | [<- | [<- | [<- | [<- | []]]]]]; simpl; tauto. }
    revert Hf. generalize (map Item.id (inventory st)) (5%nat). clear.
    intros l n. revert l. induction n as [|n IH]; intros [|x l]; simpl; try tauto.
    intros [-> | H]; [now left | right; now apply IH].
Qed.

End Invariants.

(** * The recognition session *)

Section Session.

Variable updateInventory : string -> Z -> bool -> State -> State.

Let isResult (e : Speech.Event) : bool :=
  match e with Speech.Result _ => true | _ => false end.

Lemma run_snoc (events : list Speech.Event) (e : Speech.Event) (c : Speech.Component) :
  Speech.run updateInventory (events ++ [e]) c
  = Speech.step updateInventory (Speech.run updateInventory events c) e.
Proof. unfold Speech.run. now rewrite fold_left_app. Qed.

(** X16.  Over any sequence of recognition events: if no final transcript is
    among them, ledger and highlight are the ones before; if the last event
    is the end of the session, the status is the idle prompt, whatever a
    command set before, and the component is not listening; if the last event
    is a start, it is listening. *)
Theorem session_events (events : list Speech.Event) (c : Speech.Component) :
  (forallb (fun e => negb (isResult e)) events = true ->
   inventory (Speech.state (Speech.run updateInventory events c))
     = inventory (Speech.state c) /\
   updatedItemId (Speech.state (Speech.run updateInventory events c))
     = updatedItemId (Speech.state c)) /\
  (let c' := Speech.run updateInventory (events ++ [Speech.Ended]) c in
   status (Speech.state c') = InMemory.idleStatus /\
   Speech.isListening c' = false /\
   inventory (Speech.state c')
     = inventory (Speech.state (Speech.run updateInventory events c))) /\
  Speech.isListening (Speech.run updateInventory (events ++ [Speech.Started]) c) = true.
Proof.
  split; [|split].
  - revert c. induction events as [|e events IH]; intros c; [now split|].
    cbn [forallb]. rewrite andb_true_iff. intros [He Hall].
    change (Speech.run updateInventory (e :: events) c)
      with (Speech.run updateInventory events (Speech.step updateInventory c e)).
    destruct (IH (Speech.step updateInventory c e) Hall) as [-> ->].
    destruct e; [| discriminate He | |]; now split.
  - cbv zeta. rewrite run_snoc. now repeat split.
  - rewrite run_snoc. reflexivity.
Qed.

End Session.

(** * The further properties at concrete inputs *)

Lemma online_accepts : forall r, online r = Persisted.Accepted.
Proof. reflexivity. Defined.

(** "Add 10 gloves to inventory" reaches the third pattern. *)
Lemma add_pattern_fragment_one_char_witness :
  exec pattern_used (JS.toLowerCase "Add 10 gloves to inventory") = None /\
  exec pattern_remove (JS.toLowerCase "Add 10 gloves to inventory") = None /\
  exec pattern_add (JS.toLowerCase "Add 10 gloves to inventory") <> None /\
  interpret "Add 10 gloves to inventory" = Some (Intent.mk "g" 10 true) /\
  (String.length "g" <= 1)%nat.
Proof.
  assert (exec pattern_add (JS.toLowerCase "Add 10 gloves to inventory") <> None) as H
    by (vm_compute; discriminate).
  split; [reflexivity|]. split; [reflexivity|]. split; [exact H|].
  split; [reflexivity|].
  exact (proj1 (add_pattern_fragment_one_char "Add 10 gloves to inventory"
                  (Intent.mk "g" 10 true) eq_refl eq_refl H eq_refl)).
Defined.

(** "Take 3 bandages" has none of the three words. *)
Lemma no_keyword_unrecognised_witness :
  JS.includes (JS.toLowerCase "Take 3 bandages") "used" = false /\
  JS.includes (JS.toLowerCase "Take 3 bandages") "remove" = false /\
  JS.includes (JS.toLowerCase "Take 3 bandages") "add" = false /\
  interpret "Take 3 bandages" = None.
Proof.
  repeat (split; [reflexivity|]).
  exact (no_keyword_unrecognised "Take 3 bandages" eq_refl eq_refl eq_refl).
Defined.

Lemma consume_needs_used_or_remove_witness :
  interpret "5 syringes used" = Some (Intent.mk "syringes" 5 false) /\
  Intent.isAdding (Intent.mk "syringes" 5 false) = false /\
  (Substring "used" (JS.toLowerCase "5 syringes used") \/
   Substring "remove" (JS.toLowerCase "5 syringes used")).
Proof.
  split; [reflexivity|]. split; [reflexivity|].
  exact (proj1 (consume_needs_used_or_remove "5 syringes used"
                  (Intent.mk "syringes" 5 false) eq_refl eq_refl)).
Defined.

(** "remove 3 bandages please": the fragment takes "please" along. *)
Lemma fragment_runs_to_end_of_line_witness :
  exec pattern_remove "remove 3 bandages please"
    = Some [(2%nat, "bandages please"); (1%nat, "3")] /\
  exists rest tail,
    group 2 [(2%nat, "bandages please"); (1%nat, "3")] = Some rest /\
    rest <> EmptyString /\ Suffix (rest ++ tail) "remove 3 bandages please" /\
    allChars JS.isDot rest = true /\
    (tail = EmptyString \/ exists a tail', tail = String a tail' /\ JS.isDot a = false).
Proof.
  split; [reflexivity|].
  exact (fragment_runs_to_end_of_line pattern_remove "remove 3 bandages please" _
           (or_intror eq_refl) eq_refl).
Defined.

Lemma reconcile_keeps_identities_witness :
  let st' := InMemory.updateInventory (inventory st0) 7 "syringes" 5 false st0 in
  (st' = InMemory.updateInventory (inventory st0) 7 "syringes" 5 false st0 \/
   st' = Persisted.updateInventory online (inventory st0) 6 7 "syringes" 5 false st0) /\
  map Item.id (inventory st') = map Item.id (inventory st0) /\
  map Item.name (inventory st') = map Item.name (inventory st0).
Proof.
  cbv zeta. split; [left; reflexivity|].
  pose proof (reconcile_keeps_identities online (inventory st0) 6 7 "syringes"
                5 false st0 _ (or_introl eq_refl)) as (_ & Hid & Hname & _).
  split; [exact Hid | exact Hname].
Defined.

(** Thirty syringes taken from twenty-five by the mounted handler. *)
Lemma handle_keeps_quantities_nonnegative_witness :
  Forall (fun it => SafeQuantity (Item.quantity it)) (inventory st0) /\
  Forall (fun it => SafeQuantity (Item.quantity it)) (InMemory.seed 0) /\
  interpret "used 30 syringes" = Some (Intent.mk "syringes" 30 false) /\
  Forall (fun it => SafeQuantity (Item.quantity it))
    (inventory (InMemory.mounted 0 7 "used 30 syringes" st0)).
Proof.
  assert (Forall (fun it => SafeQuantity (Item.quantity it)) (InMemory.seed 0)) as H
    by (repeat constructor; simpl; unfold MAX_SAFE_INTEGER; simpl; lia).
  assert (forall i, interpret "used 30 syringes" = Some i ->
            Intent.quantity i <= MAX_SAFE_INTEGER /\
            (Intent.isAdding i = true ->
             forall it, In it (inventory st0) \/ In it (InMemory.seed 0) ->
               Item.quantity it + Intent.quantity i <= MAX_SAFE_INTEGER)) as Hb.
  { intros i E.
    assert (i = Intent.mk "syringes" 30 false) as -> by (vm_compute in E; congruence).
    split; [unfold MAX_SAFE_INTEGER; simpl; lia | discriminate]. }
  split; [exact H|]. split; [exact H|]. split; [reflexivity|].
  exact (proj1 (handle_keeps_quantities_nonnegative online (InMemory.seed 0) 6 7
                  "used 30 syringes" st0 H H Hb)).
Defined.

(** Twenty vials taken from eight and put back: twenty. *)
Lemma add_consume_round_trip_witness :
  find (matchesItem "lidocaine") (InMemory.seed 0) = Some lidocaine /\
  nth_error (inventory st0) 2 = Some lidocaine /\
  SafeQuantity 20 /\ SafeQuantity (Item.quantity lidocaine) /\
  Item.quantity lidocaine + 20 <= MAX_SAFE_INTEGER /\
  (let m1 := InMemory.updateInventory (InMemory.seed 0) 1 "lidocaine" 20 false st0 in
   let m2 := InMemory.updateInventory (InMemory.seed 0) 2 "lidocaine" 20 true m1 in
   option_map Item.quantity (nth_error (inventory m2) 2) = Some 20).
Proof.
  split; [reflexivity|]. split; [reflexivity|].
  assert (SafeQuantity 20) as H1 by (unfold SafeQuantity, MAX_SAFE_INTEGER; simpl; lia).
  assert (SafeQuantity (Item.quantity lidocaine)) as H2 by (unfold SafeQuantity, MAX_SAFE_INTEGER; simpl; lia).
  assert (Item.quantity lidocaine + 20 <= MAX_SAFE_INTEGER) as H3
    by (unfold MAX_SAFE_INTEGER; simpl; lia).
  split; [exact H1|]. split; [exact H2|]. split; [exact H3|].
  exact (proj2 (add_consume_round_trip (InMemory.seed 0) 1 2 "lidocaine" 20 st0
                  lidocaine lidocaine 2 eq_refl eq_refl eq_refl H1 H2 H3)).
Defined.

Lemma reconciliations_accumulate_witness :
  find (matchesItem "gloves") (InMemory.seed 0) = Some gloves /\
  nth_error (inventory st0) 3 = Some gloves /\
  SafeQuantity 30 /\ SafeQuantity 40 /\ SafeQuantity (Item.quantity gloves) /\
  30 + 40 <= MAX_SAFE_INTEGER /\
  (let m1 := InMemory.updateInventory (InMemory.seed 0) 1 "gloves" 30 false st0 in
   let m2 := InMemory.updateInventory (InMemory.seed 0) 2 "gloves" 40 false m1 in
   nth_error (inventory m2) 3
   = nth_error (inventory (InMemory.updateInventory (InMemory.seed 0) 2 "gloves" (30 + 40)
                             false st0)) 3).
Proof.
  split; [reflexivity|]. split; [reflexivity|].
  assert (SafeQuantity 30) as H1 by (unfold SafeQuantity, MAX_SAFE_INTEGER; simpl; lia).
  assert (SafeQuantity 40) as H2 by (unfold SafeQuantity, MAX_SAFE_INTEGER; simpl; lia).
  assert (SafeQuantity (Item.quantity gloves)) as H3 by (unfold SafeQuantity, MAX_SAFE_INTEGER; simpl; lia).
  assert (30 + 40 <= MAX_SAFE_INTEGER) as H4 by (unfold MAX_SAFE_INTEGER; simpl; lia).
  split; [exact H1|]. split; [exact H2|]. split; [exact H3|]. split; [exact H4|].
  exact (reconciliations_accumulate (InMemory.seed 0) 1 2 "gloves" 30 40 false st0
           gloves gloves 3 eq_refl eq_refl eq_refl H1 H2 H3 H4
           (fun H : false = true => False_ind _ (Bool.diff_false_true H))).
Defined.

(** The fragment "l" matches Lidocaine and Gloves; Lidocaine comes first. *)
Lemma first_match_wins_witness :
  matchesItem "l" lidocaine = true /\ matchesItem "l" gloves = true /\
  (let st' := InMemory.updateInventory (InMemory.seed 0) 7 "l" 2 false st0 in
   updatedItemId st' = Some 3 /\
   nth_error (inventory st') 3 = Some gloves).
Proof.
  split; [reflexivity|]. split; [reflexivity|].
  assert (forall x, In x [syringes; Item.mk 2 "Bandages" 15 "rolls" 5 0] ->
                    matchesItem "l" x = false) as H1
    by (intros x [<- | [<- | []]]; reflexivity).
  pose proof (first_match_wins online 6 7 "l" 2 false st0
                [syringes; Item.mk 2 "Bandages" 15 "rolls" 5 0]
                [gloves; Item.mk 5 "Gauze" 12 "packs" 5 0] lidocaine
                H1 eq_refl online_accepts _ (or_introl eq_refl))
    as (Hu & _ & Hframe).
  cbv zeta. split; [exact Hu|]. apply (Hframe 3%nat gloves eq_refl). discriminate.
Defined.

Lemma empty_fragment_hits_first_item_witness :
  InMemory.seed 0 = syringes :: tl (InMemory.seed 0) /\
  (let st' := InMemory.mounted 0 7 "used 5  " st0 in
   updatedItemId st' = Some 1 /\
   nth_error (inventory st') 1 = nth_error (inventory st0) 1).
Proof.
  split; [reflexivity|].
  pose proof (empty_fragment_hits_first_item online 6 7 5 false st0 syringes
                (tl (InMemory.seed 0)) online_accepts
                (InMemory.mounted 0 7 "used 5  " st0) (or_introl eq_refl))
    as (Hu & Hframe & _).
  cbv zeta. split; [exact Hu|]. apply (Hframe 1%nat _ eq_refl). discriminate.
Defined.

Lemma ledger_change_was_written_witness :
  let st' := Persisted.updateInventory online (InMemory.seed 0) 6 7 "syringes" 5 false
               st0 in
  inventory st' <> inventory st0 /\
  exists item request,
    find (matchesItem "syringes") (InMemory.seed 0) = Some item /\
    online request = Persisted.Accepted /\
    Persisted.row_id request = Item.id item /\
    Persisted.row_last_updated request = 6 /\
    forall j inv', nth_error (inventory st') j = Some inv' ->
      Item.id inv' = Item.id item ->
      Item.quantity inv' = Persisted.row_quantity request.
Proof.
  cbv zeta.
  assert (inventory (Persisted.updateInventory online (InMemory.seed 0) 6 7 "syringes" 5
                       false st0) <> inventory st0) as H
    by (vm_compute; intros E; discriminate E).
  split; [exact H|].
  exact (ledger_change_was_written online (InMemory.seed 0) 6 7 "syringes" 5 false st0 H).
Defined.

(** One pack taken from three packs of gauze, threshold five, by the mounted
    handler whose seed still says twelve. *)
Lemma low_stock_monotone_witness :
  let st := mkState [Item.mk 5 "Gauze" 3 "packs" 5 0] EmptyString None in
  SafeQuantity 1 /\
  Forall (fun it => SafeQuantity (Item.quantity it) /\
                    (false = true -> Item.quantity it + 1 <= MAX_SAFE_INTEGER))
    (inventory st) /\
  Render.isLowStock (Item.mk 5 "Gauze" 3 "packs" 5 0) = true /\
  Render.isLowStock (Item.mk 5 "Gauze" 2 "packs" 5 7) = true.
Proof.
  cbv zeta.
  assert (SafeQuantity 1) as HN by (unfold SafeQuantity, MAX_SAFE_INTEGER; simpl; lia).
  assert (Forall (fun it => SafeQuantity (Item.quantity it) /\
                            (false = true -> Item.quantity it + 1 <= MAX_SAFE_INTEGER))
            [Item.mk 5 "Gauze" 3 "packs" 5 0]) as Hq.
  { repeat constructor; simpl; try (unfold MAX_SAFE_INTEGER; simpl; lia);
      try discriminate. }
  split; [exact HN|]. split; [exact Hq|]. split; [reflexivity|].
  exact (proj1 (low_stock_monotone (InMemory.seed 0) 7 "gauze" 1 false
                  (mkState [Item.mk 5 "Gauze" 3 "packs" 5 0] EmptyString None)
                  HN Hq 0%nat
                  (Item.mk 5 "Gauze" 3 "packs" 5 0) (Item.mk 5 "Gauze" 2 "packs" 5 7)
                  eq_refl eq_refl) eq_refl eq_refl).
Defined.

Lemma addSampleItem_appends_fresh_witness :
  inventory st0 <> [] /\
  exists st' newItem,
    InMemory.addSampleItem (inventory st0) 9 st0 = Some st' /\
    inventory st' = (inventory st0 ++ [newItem])%list /\
    (forall it, In it (inventory st0) -> Item.id it < Item.id newItem) /\
    (NoDup (map Item.id (inventory st0)) -> NoDup (map Item.id (inventory st'))) /\
    status st' = status st0 /\ updatedItemId st' = updatedItemId st0.
Proof.
  assert (inventory st0 <> []) as H by discriminate.
  split; [exact H | exact (addSampleItem_appends_fresh 9 st0 H)].
Defined.

(** The state after one voice command and one click is reachable. *)
Lemma reachable_ledger_invariant_witness :
  let st1 := InMemory.mounted 0 7 "I used 5 syringes" (InMemory.initial 0) in
  let st2 := setInventory
               (fun l => (l ++ [Item.mk 6 "Sample Item 6" 20 "pieces" 5 9])%list) st1 in
  InMemory.addSampleItem (inventory st1) 9 st1 = Some st2 /\
  Reachable st2 /\
  NoDup (map Item.id (inventory st2)) /\
  firstn 5 (map Item.id (inventory st2)) = [1; 2; 3; 4; 5].
Proof.
  cbv zeta.
  assert (Reachable (InMemory.mounted 0 7 "I used 5 syringes" (InMemory.initial 0))) as R1
    by (apply (Reachable_command (InMemory.initial 0) (InMemory.initial 0) 7
                 "I used 5 syringes"); apply Reachable_initial).
  pose proof (Reachable_add _ _ _ 9 R1 R1 eq_refl) as R2.
  split; [reflexivity|]. split; [exact R2|].
  pose proof (reachable_ledger_invariant _ R2) as (Hnd & _ & Hid & _).
  split; [exact Hnd | exact Hid].
Defined.

(** * Commands run from one and the same render *)

(** X17.  Two commands for the same fragment handled by a closure that holds
    the same captured ledger both times (as when the handler is not re-bound
    between them): the first variant computes each new quantity from the
    quantity the state holds, so both changes take effect; the second variant
    computes it from the captured item, so after the second command the
    quantity is what a single command would have left. *)
Theorem same_closure_twice
  (supabase : Persisted.Store) (captured : list Item.t) (sent1 t1 sent2 t2 : Time)
  (itemName : string) (N : Z) (isAdding : bool) (st : State)
  (item inv : Item.t) (i : nat) :
  (forall r, supabase r = Persisted.Accepted) ->
  find (matchesItem itemName) captured = Some item ->
  nth_error (inventory st) i = Some inv ->
  Item.id inv = Item.id item ->
  let adjusted q := if isAdding then q + N else Z.max 0 (q - N) in
  let m1 := InMemory.updateInventory captured t1 itemName N isAdding st in
  let m2 := InMemory.updateInventory captured t2 itemName N isAdding m1 in
  let p1 := Persisted.updateInventory supabase captured sent1 t1 itemName N isAdding st in
  let p2 := Persisted.updateInventory supabase captured sent2 t2 itemName N isAdding p1 in
  option_map Item.quantity (nth_error (inventory m2) i)
    = Some (adjusted (adjusted (Item.quantity inv))) /\
  option_map Item.quantity (nth_error (inventory p1) i)
    = Some (adjusted (Item.quantity item)) /\
  option_map Item.quantity (nth_error (inventory p2) i)
    = Some (adjusted (Item.quantity item)).
Proof.
  intros Hacc Hf Hi Hid. cbv zeta.
  unfold InMemory.updateInventory, Persisted.updateInventory.
  rewrite Hf, !Hacc.
  cbn [inventory setUpdatedItemId setStatus setInventory].
  rewrite !map_map, !nth_error_map, Hi. cbn [option_map].
  apply Z.eqb_eq in Hid. rewrite Hid. cbn [withQuantity Item.id Item.quantity].
  rewrite Hid. now repeat split.
Qed.

Lemma same_closure_twice_witness :
  find (matchesItem "gloves") (inventory st0) = Some gloves /\
  nth_error (inventory st0) 3 = Some gloves /\
  (let m1 := InMemory.updateInventory (inventory st0) 1 "gloves" 10 false st0 in
   let m2 := InMemory.updateInventory (inventory st0) 2 "gloves" 10 false m1 in
   let p1 := Persisted.updateInventory online (inventory st0) 5 1 "gloves" 10 false st0 in
   let p2 := Persisted.updateInventory online (inventory st0) 6 2 "gloves" 10 false p1 in
   option_map Item.quantity (nth_error (inventory m2) 3) = Some 30 /\
   option_map Item.quantity (nth_error (inventory p2) 3) = Some 40).
Proof.
  split; [reflexivity|]. split; [reflexivity|].
  pose proof (same_closure_twice online (inventory st0) 5 1 6 2 "gloves" 10 false st0
                gloves gloves 3 online_accepts eq_refl eq_refl eq_refl)
    as (H1 & _ & H3).
  cbv zeta. split; [exact H1 | exact H3].
Defined.
